(** * NoteSquared frontend: the lesson page's status poller and its badges

    A shallow embedding of
      - [components/StatusBadge.tsx]  ([statusConfig], [StatusBadge]),
      - [components/OutputCard.tsx]   ([outputTypeLabels], the [config] of [OutputCard]),
      - [pages/LessonPage.tsx]        ([loadLesson], [startPolling], the interval
        callback, [handleRetry], [handleOutputUpdate], the effect and its cleanup),
      - [services/api.ts]             (the [Output] and [LessonDetail] interfaces).

    React state, the [pollRef] ref, the window's interval table, the console and
    the requests in flight are fields of one explicit page state; every
    [await] splits an async function into the part that runs before it and
    the continuation that runs when the request settles. *)

From stdpp Require Import gmap strings list fin_maps.

Local Open Scope string_scope.
Local Open Scope nat_scope.

(** ** Property reads on object literals *)

Module Js.

(** What [obj[key]] evaluates to when [obj] is an object literal whose own
    properties all hold records of type [A]: an own property, a member
    inherited from [Object.prototype], or [undefined]. *)
Inductive value (A : Type) : Type :=
| Own (a : A)
| Inherited (name : string)
| Undefined.
Arguments Own {A} a.
Arguments Inherited {A} name.
Arguments Undefined {A}.

(** The property names every object literal inherits from
    [Object.prototype] (ECMAScript 20.1.3 and Annex B.2.2). Each one reads
    as a function, or for [__proto__] as the prototype object itself. *)
Definition object_prototype_keys : list string :=
  [ "constructor"; "hasOwnProperty"; "isPrototypeOf"; "propertyIsEnumerable";
    "toLocaleString"; "toString"; "valueOf"; "__proto__";
    "__defineGetter__"; "__defineSetter__"; "__lookupGetter__";
    "__lookupSetter__" ].

(** [obj[key]]: own properties first, then the prototype. *)
Definition get {A} (own : gmap string A) (key : string) : value A :=
  match own !! key with
  | Some a => Own a
  | None =>
      if bool_decide (key ∈ object_prototype_keys) then Inherited key
      else Undefined
  end.

(** Objects and functions are truthy, [undefined] is not. *)
Definition truthy {A} (v : value A) : bool :=
  match v with
  | Undefined => false
  | _ => true
  end.

(** [v || w] *)
Definition or {A} (v w : value A) : value A :=
  if truthy v then v else w.

Inductive exn : Type :=
| TypeError (msg : string).

(** [v.field], for a field that only the records of the literal have:
    [Some] of its contents, [None] for JavaScript's [undefined] (no member
    of [Object.prototype] has a property of that name), and a [TypeError]
    when [v] itself is [undefined]. *)
Definition field {A} (proj : A → string) (v : value A) : exn + option string :=
  match v with
  | Own a => inr (Some (proj a))
  | Inherited _ => inr None
  | Undefined => inl (TypeError "Cannot read properties of undefined")
  end.

(** [`${x}`] inside a template literal. *)
Definition interpolate (x : option string) : string :=
  match x with
  | Some s => s
  | None => "undefined"
  end.

(** [Array.prototype.includes] on an array of strings. *)
Definition includes (l : list string) (x : string) : bool :=
  bool_decide (x ∈ l).

End Js.

(** ** services/api.ts *)

Record Output : Type := {
  output_id : string;
  output_type : string;
  content : string;
  is_edited : bool;
  is_shared : bool;
  output_created_at : string;
}.

(** [LessonDetail extends Lesson]: the fields of [Lesson], then [transcript]
    and [outputs]. *)
Record LessonDetail : Type := {
  lesson_id : string;
  student_id : string;
  student_name : string;
  lesson_date : string;
  status : string;
  duration_seconds : option Z;
  error_message : option string;
  created_at : string;
  updated_at : string;
  transcript : option string;
  outputs : list Output;
}.

(** How a promise returned by [lessonsApi] settles. *)
Inductive response (A : Type) : Type :=
| Resolved (data : A)
| Rejected (err : string).
Arguments Resolved {A} data.
Arguments Rejected {A} err.

Inductive api_call : Type :=
| ApiGet (id : string)        (* lessonsApi.get(id) *)
| ApiProcess (id : string).   (* lessonsApi.process(id) *)

(** ** components/StatusBadge.tsx *)

Record StatusConfig : Type := { label : string; color : string }.

Definition statusConfig : gmap string StatusConfig :=
  list_to_map
    [ ("CREATED", {| label := "Created"; color := "bg-gray-600" |});
      ("UPLOADED", {| label := "Uploaded"; color := "bg-blue-600" |});
      ("TRANSCRIBING", {| label := "Transcribing..."; color := "bg-yellow-600" |});
      ("EXTRACTING", {| label := "Analyzing..."; color := "bg-yellow-600" |});
      ("GENERATING", {| label := "Generating..."; color := "bg-yellow-600" |});
      ("COMPLETED", {| label := "Completed"; color := "bg-emerald-600" |});
      ("FAILED", {| label := "Failed"; color := "bg-red-600" |}) ].

(** The rendered [<span>]: its class attribute and its text child ([None]
    when the child expression is [undefined], which React renders as
    nothing). *)
Record Span : Type := { className : string; children : option string }.

Definition badge_classes : string :=
  "inline-flex items-center px-2.5 py-0.5 rounded-full text-xs font-medium text-white ".

Definition StatusBadge (status : string) : Js.exn + Span :=
  let config :=
    Js.or (Js.get statusConfig status)
          (Js.Own {| label := status; color := "bg-gray-600" |}) in
  match Js.field color config, Js.field label config with
  | inr c, inr l =>
      inr {| className := badge_classes ++ Js.interpolate c; children := l |}
  | inl e, _ => inl e
  | _, inl e => inl e
  end.

(** The seven values of the status enumeration. *)
Definition status_enum : list string :=
  [ "CREATED"; "UPLOADED"; "TRANSCRIBING"; "EXTRACTING"; "GENERATING";
    "COMPLETED"; "FAILED" ].

(** ** components/OutputCard.tsx *)

Record OutputTypeLabel : Type := { title : string; icon : string }.

Definition outputTypeLabels : gmap string OutputTypeLabel :=
  list_to_map
    [ ("STUDENT_RECAP", {| title := "Student Recap"; icon := "📝" |});
      ("PRACTICE_PLAN", {| title := "Practice Plan"; icon := "📅" |});
      ("PARENT_EMAIL", {| title := "Parent Email"; icon := "✉️" |}) ].

(** The two places of the card that show [config]: the icon [<span>] and the
    [<h3>] title. *)
Record CardHeader : Type := { header_icon : option string; header_title : option string }.

Definition OutputCard_header (output : Output) : Js.exn + CardHeader :=
  let config :=
    Js.or (Js.get outputTypeLabels (output_type output))
          (Js.Own {| title := output_type output; icon := "📄" |}) in
  match Js.field icon config, Js.field title config with
  | inr i, inr t => inr {| header_icon := i; header_title := t |}
  | inl e, _ => inl e
  | _, inl e => inl e
  end.

(** The three output types the card has a title and an icon for. *)
Definition output_type_enum : list string :=
  [ "STUDENT_RECAP"; "PRACTICE_PLAN"; "PARENT_EMAIL" ].

(** ** pages/LessonPage.tsx: the page state *)

(** Interval handles. [window.setInterval] returns integers greater than
    zero, so [if (pollRef.current)] is exactly the test that the ref is not
    [null]. *)
Definition handle : Type := positive.

(** The [await]s at which an async function of the page can be suspended. *)
Inductive pending : Type :=
| AwaitLoad        (* loadLesson called by the effect, at lessonsApi.get *)
| AwaitTick        (* the interval callback, at lessonsApi.get *)
| AwaitProcess     (* handleRetry, at lessonsApi.process *)
| AwaitRetryLoad.  (* handleRetry, at loadLesson, itself at lessonsApi.get *)

Global Instance pending_eq_dec : EqDecision pending.
Proof. solve_decision. Defined.

Record Page : Type := {
  lessonId : string;                (* useParams; the empty string is falsy *)
  lesson : option LessonDetail;     (* useState<LessonDetail | null>(null) *)
  isLoading : bool;                 (* useState(true) *)
  isRetrying : bool;                (* useState(false) *)
  pollRef : option handle;          (* useRef<number | null>(null) *)
  intervals : gmap handle Z;        (* the window's active intervals and their delays in ms *)
  next_handle : handle;             (* the handle the next setInterval returns *)
  navigated : list string;          (* arguments of the navigate calls *)
  console : list string;            (* messages of the console.error calls *)
  requests : list api_call;         (* calls made to lessonsApi, oldest first *)
  inflight : list pending;          (* requests that have not settled yet *)
}.

Definition initial_page (id : string) : Page :=
  {| lessonId := id; lesson := None; isLoading := true; isRetrying := false;
     pollRef := None; intervals := ∅; next_handle := 1%positive;
     navigated := []; console := []; requests := []; inflight := [] |}.

Definition setLesson (v : option LessonDetail) (s : Page) : Page :=
  {| lessonId := lessonId s; lesson := v; isLoading := isLoading s;
     isRetrying := isRetrying s; pollRef := pollRef s; intervals := intervals s;
     next_handle := next_handle s; navigated := navigated s;
     console := console s; requests := requests s; inflight := inflight s |}.

Definition setIsLoading (v : bool) (s : Page) : Page :=
  {| lessonId := lessonId s; lesson := lesson s; isLoading := v;
     isRetrying := isRetrying s; pollRef := pollRef s; intervals := intervals s;
     next_handle := next_handle s; navigated := navigated s;
     console := console s; requests := requests s; inflight := inflight s |}.

Definition setIsRetrying (v : bool) (s : Page) : Page :=
  {| lessonId := lessonId s; lesson := lesson s; isLoading := isLoading s;
     isRetrying := v; pollRef := pollRef s; intervals := intervals s;
     next_handle := next_handle s; navigated := navigated s;
     console := console s; requests := requests s; inflight := inflight s |}.

Definition set_pollRef (v : option handle) (s : Page) : Page :=
  {| lessonId := lessonId s; lesson := lesson s; isLoading := isLoading s;
     isRetrying := isRetrying s; pollRef := v; intervals := intervals s;
     next_handle := next_handle s; navigated := navigated s;
     console := console s; requests := requests s; inflight := inflight s |}.

(** [window.clearInterval(h)]; a handle that is not active is ignored. *)
Definition clearInterval (h : handle) (s : Page) : Page :=
  {| lessonId := lessonId s; lesson := lesson s; isLoading := isLoading s;
     isRetrying := isRetrying s; pollRef := pollRef s;
     intervals := delete h (intervals s);
     next_handle := next_handle s; navigated := navigated s;
     console := console s; requests := requests s; inflight := inflight s |}.

(** [window.setInterval(callback, delay)]: registers the callback under a
    fresh handle and returns the handle. *)
Definition setInterval (delay : Z) (s : Page) : handle * Page :=
  (next_handle s,
   {| lessonId := lessonId s; lesson := lesson s; isLoading := isLoading s;
      isRetrying := isRetrying s; pollRef := pollRef s;
      intervals := <[next_handle s := delay]> (intervals s);
      next_handle := Pos.succ (next_handle s); navigated := navigated s;
      console := console s; requests := requests s; inflight := inflight s |}).

Definition navigate (to : string) (s : Page) : Page :=
  {| lessonId := lessonId s; lesson := lesson s; isLoading := isLoading s;
     isRetrying := isRetrying s; pollRef := pollRef s; intervals := intervals s;
     next_handle := next_handle s; navigated := navigated s ++ [to];
     console := console s; requests := requests s; inflight := inflight s |}.

Definition console_error (msg : string) (s : Page) : Page :=
  {| lessonId := lessonId s; lesson := lesson s; isLoading := isLoading s;
     isRetrying := isRetrying s; pollRef := pollRef s; intervals := intervals s;
     next_handle := next_handle s; navigated := navigated s;
     console := console s ++ [msg]; requests := requests s;
     inflight := inflight s |}.

(** Calling [lessonsApi] and suspending at the [await] named [k]. *)
Definition request (c : api_call) (k : pending) (s : Page) : Page :=
  {| lessonId := lessonId s; lesson := lesson s; isLoading := isLoading s;
     isRetrying := isRetrying s; pollRef := pollRef s; intervals := intervals s;
     next_handle := next_handle s; navigated := navigated s;
     console := console s; requests := requests s ++ [c];
     inflight := inflight s ++ [k] |}.

(** The request suspended at [k] settles: it is in flight no longer. *)
Fixpoint remove_first (k : pending) (l : list pending) : list pending :=
  match l with
  | [] => []
  | k' :: l' => if decide (k = k') then l' else k' :: remove_first k l'
  end.

Definition settle (k : pending) (s : Page) : Page :=
  {| lessonId := lessonId s; lesson := lesson s; isLoading := isLoading s;
     isRetrying := isRetrying s; pollRef := pollRef s; intervals := intervals s;
     next_handle := next_handle s; navigated := navigated s;
     console := console s; requests := requests s;
     inflight := remove_first k (inflight s) |}.

(** ** pages/LessonPage.tsx: the functions of the page *)

Definition PROCESSING_STATUSES : list string :=
  [ "UPLOADED"; "TRANSCRIBING"; "EXTRACTING"; "GENERATING" ].

(** The statuses the spec calls terminal; the page has no constant for
    them, it tests [lesson.status === 'FAILED'] and [=== 'COMPLETED']. *)
Definition TERMINAL_STATUSES : list string := [ "COMPLETED"; "FAILED" ].

(** The delay passed to [window.setInterval]. *)
Definition POLL_DELAY : Z := 2000.

(** [startPolling], up to the registration of the callback. *)
Definition startPolling (s : Page) : Page :=
  let s1 :=
    match pollRef s with
    | Some h => clearInterval h s
    | None => s
    end in
  let '(h, s2) := setInterval POLL_DELAY s1 in
  set_pollRef (Some h) s2.

(** [loadLesson] up to its [await]; [k] records which caller is waiting. *)
Definition loadLesson_begin (k : pending) (s : Page) : Page :=
  request (ApiGet (lessonId s)) k s.

(** [loadLesson] from its [await] on: the [try] body or the [catch] block,
    then the [finally] block. *)
Definition loadLesson_resume (r : response LessonDetail) (s : Page) : Page :=
  let s' :=
    match r with
    | Resolved data =>
        let s1 := setLesson (Some data) s in
        if Js.includes PROCESSING_STATUSES (status data)
        then startPolling s1
        else s1
    | Rejected _ =>
        navigate "/" (console_error "Failed to load lesson" s)
    end in
  setIsLoading false s'.

(** The interval callback up to its [await]. *)
Definition pollTick_begin (s : Page) : Page :=
  request (ApiGet (lessonId s)) AwaitTick s.

(** The interval callback from its [await] on. *)
Definition pollTick_resume (r : response LessonDetail) (s : Page) : Page :=
  match r with
  | Resolved data =>
      let s1 := setLesson (Some data) s in
      if negb (Js.includes PROCESSING_STATUSES (status data))
      then
        match pollRef s1 with
        | Some h => set_pollRef None (clearInterval h s1)
        | None => s1
        end
      else s1
  | Rejected _ => console_error "Polling error" s
  end.

(** [handleRetry] up to [await lessonsApi.process]. *)
Definition handleRetry_begin (s : Page) : Page :=
  request (ApiProcess (lessonId s)) AwaitProcess (setIsRetrying true s).

(** [handleRetry] once [lessonsApi.process] has settled: on success it calls
    [loadLesson] and waits for it, on failure it runs [catch] and [finally].
    The body of the response is not used. *)
Definition handleRetry_processed (r : response unit) (s : Page) : Page :=
  match r with
  | Resolved _ => loadLesson_begin AwaitRetryLoad s
  | Rejected _ => setIsRetrying false (console_error "Retry failed" s)
  end.

(** [handleRetry] once the request of its [loadLesson] has settled:
    [loadLesson] runs to its end (it catches its own errors, so the promise
    it returns always resolves), then [startPolling()], then [finally]. *)
Definition handleRetry_loaded (r : response LessonDetail) (s : Page) : Page :=
  setIsRetrying false (startPolling (loadLesson_resume r s)).

(** The cleanup returned by the effect: [dispose]. React runs it when the
    page unmounts and also, with the page still mounted, when [lessonId]
    changes. *)
Definition cleanup (s : Page) : Page :=
  match pollRef s with
  | Some h => clearInterval h s
  | None => s
  end.

(** The body of the effect. The page state is that of the view of one
    lesson: [lessonId] is the route parameter of that view and does not
    change. A run of the effect after the cleanup is React mounting the
    page again for the same lesson; a change of the route to another
    lesson is not modelled. *)
Definition effect (s : Page) : Page :=
  if bool_decide (lessonId s ≠ "") then loadLesson_begin AwaitLoad s else s.

(** The spread [{...lesson, outputs: v}]. *)
Definition with_outputs (l : LessonDetail) (v : list Output) : LessonDetail :=
  {| lesson_id := lesson_id l; student_id := student_id l;
     student_name := student_name l; lesson_date := lesson_date l;
     status := status l; duration_seconds := duration_seconds l;
     error_message := error_message l; created_at := created_at l;
     updated_at := updated_at l; transcript := transcript l; outputs := v |}.

(** [handleOutputUpdate] is created anew by every render and closes over the
    [lesson] of that render: [captured] is that lesson. It is the held
    lesson only while no other [setLesson] has run since that render. *)
Definition handleOutputUpdate (captured : option LessonDetail)
    (updated : Output) (s : Page) : Page :=
  match captured with
  | Some l =>
      setLesson
        (Some (with_outputs l
           ((λ o, if bool_decide (output_id o = output_id updated)
                  then updated else o) <$> outputs l)))
        s
  | None => s
  end.

(** ** The page as a transition system *)

Inductive event : Type :=
| EvEffect                                            (* React runs the effect *)
| EvCleanup                                           (* React runs its cleanup *)
| EvTimer (h : handle)                                (* the window fires interval h *)
| EvGetSettled (k : pending) (r : response LessonDetail)  (* a lessonsApi.get settles *)
| EvProcessSettled (r : response unit)                (* a lessonsApi.process settles *)
| EvRetryClick                                        (* the Retry Processing button *)
| EvOutputUpdate (captured : option LessonDetail) (updated : Output).
    (* an OutputCard calls the onUpdate it was given by the render
       that held [captured]; the step takes that lesson as given *)

(** The retry button is rendered only below the loading spinner's early
    return and only when [lesson.status === 'FAILED']. *)
Definition retry_button_shown (s : Page) : bool :=
  negb (isLoading s) &&
  match lesson s with
  | Some l => bool_decide (status l = "FAILED")
  | None => false
  end.

(** One turn of the event loop; [None] when the event cannot happen in [s]. *)
Definition step (e : event) (s : Page) : option Page :=
  match e with
  | EvEffect => Some (effect s)
  | EvCleanup => Some (cleanup s)
  | EvTimer h =>
      if bool_decide (h ∈ dom (intervals s)) then Some (pollTick_begin s) else None
  | EvGetSettled k r =>
      if bool_decide (k ∈ inflight s) then
        match k with
        | AwaitLoad => Some (loadLesson_resume r (settle k s))
        | AwaitTick => Some (pollTick_resume r (settle k s))
        | AwaitRetryLoad => Some (handleRetry_loaded r (settle k s))
        | AwaitProcess => None
        end
      else None
  | EvProcessSettled r =>
      if bool_decide (AwaitProcess ∈ inflight s)
      then Some (handleRetry_processed r (settle AwaitProcess s))
      else None
  | EvRetryClick =>
      if retry_button_shown s then Some (handleRetry_begin s) else None
  | EvOutputUpdate captured updated =>
      Some (handleOutputUpdate captured updated s)
  end.

Fixpoint run (evs : list event) (s : Page) : option Page :=
  match evs with
  | [] => Some s
  | e :: evs' =>
      match step e s with
      | Some s' => run evs' s'
      | None => None
      end
  end.

(** The states the page of lesson [id] can be in. *)
Definition reachable (id : string) (s : Page) : Prop :=
  ∃ evs, run evs (initial_page id) = Some s.

(** Every active interval is the one [pollRef] names. *)
Definition poll_inv (s : Page) : Prop :=
  ∀ h, h ∈ dom (intervals s) → pollRef s = Some h.

(** Every active interval was registered with the poll delay. *)
Definition delay_inv (s : Page) : Prop :=
  ∀ h d, intervals s !! h = Some d → d = POLL_DELAY.

(** The handle the window hands out next is not in use. *)
Definition fresh_inv (s : Page) : Prop :=
  ∀ h, h ∈ dom (intervals s) → (h < next_handle s)%positive.

Definition page_inv (s : Page) : Prop :=
  poll_inv s ∧ delay_inv s ∧ fresh_inv s.

(** ** Bookkeeping over runs of the page *)

Definition is_process_call (c : api_call) : bool :=
  match c with
  | ApiProcess _ => true
  | ApiGet _ => false
  end.

Definition is_retry_click (e : event) : bool :=
  match e with
  | EvRetryClick => true
  | _ => false
  end.

(** The handle [pollRef] holds, active or stale, was handed out before. *)
Definition ref_inv (s : Page) : Prop :=
  ∀ h, pollRef s = Some h → (h < next_handle s)%positive.

(** The page only ever navigates to the home view, once per logged load
    failure. *)
Definition navigation_inv (s : Page) : Prop :=
  Forall (λ to, to = "/") (navigated s) ∧
  length (navigated s) =
  length (filter (λ msg, msg = "Failed to load lesson") (console s)).

(** The calls to [lessonsApi] that one turn of the event loop makes. *)
Definition issued (e : event) (s : Page) : list api_call :=
  match e with
  | EvEffect =>
      if bool_decide (lessonId s ≠ "") then [ApiGet (lessonId s)] else []
  | EvTimer _ => [ApiGet (lessonId s)]
  | EvProcessSettled (Resolved _) => [ApiGet (lessonId s)]
  | EvRetryClick => [ApiProcess (lessonId s)]
  | _ => []
  end.

(** ** pages/LessonPage.tsx: what the page renders *)

(** [cond && 'text'] as a child: React renders [false] as nothing. *)
Definition and_text (cond : bool) (text : string) : string :=
  if cond then text else "".

(** The children of the paragraph inside the processing card. *)
Definition processing_message (st : string) : string :=
  and_text (bool_decide (st = "UPLOADED")) "Preparing to transcribe..." ++
  and_text (bool_decide (st = "TRANSCRIBING")) "Transcribing audio..." ++
  and_text (bool_decide (st = "EXTRACTING")) "Analyzing lesson content..." ++
  and_text (bool_decide (st = "GENERATING")) "Generating outputs...".

(** [x || fallback] for [x : string | null]: [null] and the empty string
    are falsy. *)
Definition or_text (x : option string) (fallback : string) : string :=
  match x with
  | Some t => if bool_decide (t = "") then fallback else t
  | None => fallback
  end.

Record FailedCard : Type := {
  failed_message : string;   (* lesson.error_message || 'Something went wrong ...' *)
  retry_isLoading : bool;    (* the isLoading prop of the retry button *)
}.

(** The parts of the page below the spinner's early return. The paragraph
    with the formatted lesson date is left out. *)
Record LessonBody : Type := {
  back_to : string;                        (* the Link's target *)
  heading : string;                        (* the h1 *)
  badge : Span;                            (* <StatusBadge status=... /> *)
  processing_card : option string;         (* its message *)
  failed_card : option FailedCard;
  output_cards : option (list CardHeader); (* one OutputCard per output *)
  transcript_card : option string;
}.

Inductive LessonView : Type :=
| Spinner                  (* if (isLoading) return the spinner *)
| Nothing                  (* if (!lesson) return null *)
| Body (b : LessonBody).

(** [lesson.outputs.map((output) => <OutputCard ... />)]: the headers of the
    cards, or the first exception one of them throws. *)
Fixpoint render_cards (l : list Output) : Js.exn + list CardHeader :=
  match l with
  | [] => inr []
  | o :: l' =>
      match OutputCard_header o with
      | inl e => inl e
      | inr hd =>
          match render_cards l' with
          | inl e => inl e
          | inr hds => inr (hd :: hds)
          end
      end
  end.

Definition isProcessing (l : LessonDetail) : bool :=
  Js.includes PROCESSING_STATUSES (status l).
Definition isFailed (l : LessonDetail) : bool :=
  bool_decide (status l = "FAILED").
Definition isCompleted (l : LessonDetail) : bool :=
  bool_decide (status l = "COMPLETED").

(** [isCompleted && lesson.outputs.length > 0 && (...)] *)
Definition outputs_section (l : LessonDetail) : Js.exn + option (list CardHeader) :=
  if isCompleted l && bool_decide (0 < length (outputs l))
  then
    match render_cards (outputs l) with
    | inl e => inl e
    | inr hds => inr (Some hds)
    end
  else inr None.

(** [isCompleted && lesson.transcript && (...)] *)
Definition transcript_section (l : LessonDetail) : option string :=
  if isCompleted l
  then
    match transcript l with
    | Some t => if bool_decide (t = "") then None else Some t
    | None => None
    end
  else None.

Definition LessonPage_render (s : Page) : Js.exn + LessonView :=
  if isLoading s then inr Spinner
  else
    match lesson s with
    | None => inr Nothing
    | Some l =>
        match StatusBadge (status l), outputs_section l with
        | inr b, inr cs =>
            inr (Body
              {| back_to := "/students/" ++ student_id l;
                 heading := "Lesson with " ++ student_name l;
                 badge := b;
                 processing_card :=
                   if isProcessing l
                   then Some (processing_message (status l))
                   else None;
                 failed_card :=
                   if isFailed l
                   then Some
                     {| failed_message :=
                          or_text (error_message l)
                            "Something went wrong while processing your lesson.";
                        retry_isLoading := isRetrying s |}
                   else None;
                 output_cards := cs;
                 transcript_card := transcript_section l |})
        | inl e, _ => inl e
        | _, inl e => inl e
        end
    end.

(** ** components/OutputCard.tsx: the state of a card *)

Inductive outputs_call : Type :=
| OutputsUpdate (id content : string)   (* outputsApi.update(id, content) *)
| OutputsShare (id : string)            (* outputsApi.share(id) *)
| OutputsRevert (id : string).          (* outputsApi.revert(id) *)

(** The [await]s at which a handler of the card can be suspended. The
    handler of the copy button closes over the output it was created
    with, so its continuation carries that output's id and content. *)
Inductive card_pending : Type :=
| AwaitClipboard (id text : string)   (* handleCopy, at clipboard.writeText *)
| AwaitShare                          (* handleCopy, at outputsApi.share *)
| AwaitUpdate                         (* handleSave, at outputsApi.update *)
| AwaitRevert.                        (* handleRevert, at outputsApi.revert *)

Global Instance card_pending_eq_dec : EqDecision card_pending.
Proof. solve_decision. Defined.

Record CardState : Type := {
  card_output : Output;                       (* the output prop *)
  card_onUpdate : bool;                       (* whether the onUpdate prop was passed *)
  isExpanded : bool;                          (* useState(true) *)
  isEditing : bool;                           (* useState(false) *)
  editContent : string;                       (* useState(output.content) *)
  isCopied : bool;                            (* useState(false) *)
  isSaving : bool;                            (* useState(false) *)
  clipboard : list string;                    (* texts written to the clipboard, oldest first *)
  card_timeouts : nat;                        (* setTimeout callbacks that have not run yet *)
  card_console : list string;                 (* messages of the console.error calls *)
  card_requests : list outputs_call;          (* calls made to outputsApi, oldest first *)
  card_updates : list Output;                 (* arguments of the onUpdate calls, oldest first *)
  card_inflight : list card_pending;          (* promises that have not settled yet *)
}.

Definition initial_card (output : Output) (onUpdate : bool) : CardState :=
  {| card_output := output; card_onUpdate := onUpdate; isExpanded := true;
     isEditing := false; editContent := content output; isCopied := false;
     isSaving := false; clipboard := []; card_timeouts := 0;
     card_console := []; card_requests := []; card_updates := [];
     card_inflight := [] |}.

(** The parent renders the card again with another [output] prop. *)
Definition set_card_output (v : Output) (c : CardState) : CardState :=
  {| card_output := v;
     card_onUpdate := card_onUpdate c;
     isExpanded := isExpanded c;
     isEditing := isEditing c;
     editContent := editContent c;
     isCopied := isCopied c;
     isSaving := isSaving c;
     clipboard := clipboard c;
     card_timeouts := card_timeouts c;
     card_console := card_console c;
     card_requests := card_requests c;
     card_updates := card_updates c;
     card_inflight := card_inflight c |}.

Definition setIsExpanded (v : bool) (c : CardState) : CardState :=
  {| card_output := card_output c;
     card_onUpdate := card_onUpdate c;
     isExpanded := v;
     isEditing := isEditing c;
     editContent := editContent c;
     isCopied := isCopied c;
     isSaving := isSaving c;
     clipboard := clipboard c;
     card_timeouts := card_timeouts c;
     card_console := card_console c;
     card_requests := card_requests c;
     card_updates := card_updates c;
     card_inflight := card_inflight c |}.

Definition setIsEditing (v : bool) (c : CardState) : CardState :=
  {| card_output := card_output c;
     card_onUpdate := card_onUpdate c;
     isExpanded := isExpanded c;
     isEditing := v;
     editContent := editContent c;
     isCopied := isCopied c;
     isSaving := isSaving c;
     clipboard := clipboard c;
     card_timeouts := card_timeouts c;
     card_console := card_console c;
     card_requests := card_requests c;
     card_updates := card_updates c;
     card_inflight := card_inflight c |}.

Definition setEditContent (v : string) (c : CardState) : CardState :=
  {| card_output := card_output c;
     card_onUpdate := card_onUpdate c;
     isExpanded := isExpanded c;
     isEditing := isEditing c;
     editContent := v;
     isCopied := isCopied c;
     isSaving := isSaving c;
     clipboard := clipboard c;
     card_timeouts := card_timeouts c;
     card_console := card_console c;
     card_requests := card_requests c;
     card_updates := card_updates c;
     card_inflight := card_inflight c |}.

Definition setIsCopied (v : bool) (c : CardState) : CardState :=
  {| card_output := card_output c;
     card_onUpdate := card_onUpdate c;
     isExpanded := isExpanded c;
     isEditing := isEditing c;
     editContent := editContent c;
     isCopied := v;
     isSaving := isSaving c;
     clipboard := clipboard c;
     card_timeouts := card_timeouts c;
     card_console := card_console c;
     card_requests := card_requests c;
     card_updates := card_updates c;
     card_inflight := card_inflight c |}.

Definition setIsSaving (v : bool) (c : CardState) : CardState :=
  {| card_output := card_output c;
     card_onUpdate := card_onUpdate c;
     isExpanded := isExpanded c;
     isEditing := isEditing c;
     editContent := editContent c;
     isCopied := isCopied c;
     isSaving := v;
     clipboard := clipboard c;
     card_timeouts := card_timeouts c;
     card_console := card_console c;
     card_requests := card_requests c;
     card_updates := card_updates c;
     card_inflight := card_inflight c |}.

Definition card_console_error (msg : string) (c : CardState) : CardState :=
  {| card_output := card_output c;
     card_onUpdate := card_onUpdate c;
     isExpanded := isExpanded c;
     isEditing := isEditing c;
     editContent := editContent c;
     isCopied := isCopied c;
     isSaving := isSaving c;
     clipboard := clipboard c;
     card_timeouts := card_timeouts c;
     card_console := card_console c ++ [msg];
     card_requests := card_requests c;
     card_updates := card_updates c;
     card_inflight := card_inflight c |}.

(** [navigator.clipboard.writeText(text)] has resolved. *)
Definition clipboard_written (text : string) (c : CardState) : CardState :=
  {| card_output := card_output c;
     card_onUpdate := card_onUpdate c;
     isExpanded := isExpanded c;
     isEditing := isEditing c;
     editContent := editContent c;
     isCopied := isCopied c;
     isSaving := isSaving c;
     clipboard := clipboard c ++ [text];
     card_timeouts := card_timeouts c;
     card_console := card_console c;
     card_requests := card_requests c;
     card_updates := card_updates c;
     card_inflight := card_inflight c |}.

(** [setTimeout(callback, 2000)] *)
Definition setTimeout (c : CardState) : CardState :=
  {| card_output := card_output c;
     card_onUpdate := card_onUpdate c;
     isExpanded := isExpanded c;
     isEditing := isEditing c;
     editContent := editContent c;
     isCopied := isCopied c;
     isSaving := isSaving c;
     clipboard := clipboard c;
     card_timeouts := S (card_timeouts c);
     card_console := card_console c;
     card_requests := card_requests c;
     card_updates := card_updates c;
     card_inflight := card_inflight c |}.

Definition timeout_ran (c : CardState) : CardState :=
  {| card_output := card_output c;
     card_onUpdate := card_onUpdate c;
     isExpanded := isExpanded c;
     isEditing := isEditing c;
     editContent := editContent c;
     isCopied := isCopied c;
     isSaving := isSaving c;
     clipboard := clipboard c;
     card_timeouts := pred (card_timeouts c);
     card_console := card_console c;
     card_requests := card_requests c;
     card_updates := card_updates c;
     card_inflight := card_inflight c |}.

Definition card_request (call : outputs_call) (c : CardState) : CardState :=
  {| card_output := card_output c;
     card_onUpdate := card_onUpdate c;
     isExpanded := isExpanded c;
     isEditing := isEditing c;
     editContent := editContent c;
     isCopied := isCopied c;
     isSaving := isSaving c;
     clipboard := clipboard c;
     card_timeouts := card_timeouts c;
     card_console := card_console c;
     card_requests := card_requests c ++ [call];
     card_updates := card_updates c;
     card_inflight := card_inflight c |}.

Definition card_await (k : card_pending) (c : CardState) : CardState :=
  {| card_output := card_output c;
     card_onUpdate := card_onUpdate c;
     isExpanded := isExpanded c;
     isEditing := isEditing c;
     editContent := editContent c;
     isCopied := isCopied c;
     isSaving := isSaving c;
     clipboard := clipboard c;
     card_timeouts := card_timeouts c;
     card_console := card_console c;
     card_requests := card_requests c;
     card_updates := card_updates c;
     card_inflight := card_inflight c ++ [k] |}.

Definition onUpdate_called (data : Output) (c : CardState) : CardState :=
  {| card_output := card_output c;
     card_onUpdate := card_onUpdate c;
     isExpanded := isExpanded c;
     isEditing := isEditing c;
     editContent := editContent c;
     isCopied := isCopied c;
     isSaving := isSaving c;
     clipboard := clipboard c;
     card_timeouts := card_timeouts c;
     card_console := card_console c;
     card_requests := card_requests c;
     card_updates := card_updates c ++ [data];
     card_inflight := card_inflight c |}.

Fixpoint card_remove_first (k : card_pending) (l : list card_pending) : list card_pending :=
  match l with
  | [] => []
  | k' :: l' => if decide (k = k') then l' else k' :: card_remove_first k l'
  end.

Definition card_settle (k : card_pending) (c : CardState) : CardState :=
  {| card_output := card_output c;
     card_onUpdate := card_onUpdate c;
     isExpanded := isExpanded c;
     isEditing := isEditing c;
     editContent := editContent c;
     isCopied := isCopied c;
     isSaving := isSaving c;
     clipboard := clipboard c;
     card_timeouts := card_timeouts c;
     card_console := card_console c;
     card_requests := card_requests c;
     card_updates := card_updates c;
     card_inflight := card_remove_first k (card_inflight c) |}.

(** [onUpdate?.(data)] *)
Definition call_onUpdate (data : Output) (c : CardState) : CardState :=
  if card_onUpdate c then onUpdate_called data c else c.

(** The click handler of the header. *)
Definition toggle_expanded (c : CardState) : CardState :=
  setIsExpanded (negb (isExpanded c)) c.

(** The click handler of the Edit button. *)
Definition edit_click (c : CardState) : CardState :=
  setEditContent (content (card_output c)) (setIsEditing true c).

(** The click handler of the Cancel button. *)
Definition cancel_click (c : CardState) : CardState :=
  setEditContent (content (card_output c)) (setIsEditing false c).

(** [handleCopy] up to [await navigator.clipboard.writeText]. *)
Definition handleCopy_begin (c : CardState) : CardState :=
  card_await
    (AwaitClipboard (output_id (card_output c)) (content (card_output c))) c.

(** [handleCopy] once the clipboard write has settled. When it rejects, the
    exception leaves [handleCopy] and nothing else runs. *)
Definition handleCopy_written (id text : string) (r : response unit)
    (c : CardState) : CardState :=
  match r with
  | Resolved _ =>
      card_await AwaitShare
        (card_request (OutputsShare id)
           (setTimeout (setIsCopied true (clipboard_written text c))))
  | Rejected _ => c
  end.

(** [handleCopy] once [outputsApi.share] has settled. *)
Definition handleCopy_shared (r : response Output) (c : CardState) : CardState :=
  match r with
  | Resolved _ => c
  | Rejected _ => card_console_error "Failed to mark as shared" c
  end.

(** The callback of [setTimeout]. *)
Definition copied_timeout (c : CardState) : CardState :=
  setIsCopied false (timeout_ran c).

(** [handleSave] up to [await outputsApi.update]. *)
Definition handleSave_begin (c : CardState) : CardState :=
  card_await AwaitUpdate
    (card_request (OutputsUpdate (output_id (card_output c)) (editContent c))
       (setIsSaving true c)).

(** [handleSave] once [outputsApi.update] has settled. *)
Definition handleSave_resume (r : response Output) (c : CardState) : CardState :=
  let c' :=
    match r with
    | Resolved data => setIsEditing false (call_onUpdate data c)
    | Rejected _ => card_console_error "Failed to save" c
    end in
  setIsSaving false c'.

(** [handleRevert] up to [await outputsApi.revert]. *)
Definition handleRevert_begin (c : CardState) : CardState :=
  card_await AwaitRevert
    (card_request (OutputsRevert (output_id (card_output c))) c).

(** [handleRevert] once [outputsApi.revert] has settled. *)
Definition handleRevert_resume (r : response Output) (c : CardState) : CardState :=
  match r with
  | Resolved data => setEditContent (content data) (call_onUpdate data c)
  | Rejected _ => card_console_error "Failed to revert" c
  end.

Inductive card_event : Type :=
| CardToggle                                  (* click on the header *)
| CardCopyClick
| CardEditClick
| CardRevertClick
| CardCancelClick
| CardSaveClick
| CardChange (v : string)                     (* typing in the textarea *)
| CardClipboardSettled (id text : string) (r : response unit)
| CardRequestSettled (k : card_pending) (r : response Output)
| CardTimeout                                 (* a setTimeout callback runs *)
| CardProps (output : Output).                (* the parent passes a new output *)

(** Which controls the card renders. *)
Definition view_buttons_shown (c : CardState) : bool :=
  isExpanded c && negb (isEditing c).
Definition revert_button_shown (c : CardState) : bool :=
  view_buttons_shown c && is_edited (card_output c).
Definition editor_shown (c : CardState) : bool :=
  isExpanded c && isEditing c.

Definition card_step (e : card_event) (c : CardState) : option CardState :=
  match e with
  | CardToggle => Some (toggle_expanded c)
  | CardCopyClick =>
      if view_buttons_shown c then Some (handleCopy_begin c) else None
  | CardEditClick =>
      if view_buttons_shown c then Some (edit_click c) else None
  | CardRevertClick =>
      if revert_button_shown c then Some (handleRevert_begin c) else None
  | CardCancelClick =>
      if editor_shown c then Some (cancel_click c) else None
  | CardSaveClick =>
      if editor_shown c then Some (handleSave_begin c) else None
  | CardChange v =>
      if editor_shown c then Some (setEditContent v c) else None
  | CardClipboardSettled id text r =>
      if bool_decide (AwaitClipboard id text ∈ card_inflight c)
      then Some (handleCopy_written id text r
                   (card_settle (AwaitClipboard id text) c))
      else None
  | CardRequestSettled k r =>
      if bool_decide (k ∈ card_inflight c) then
        match k with
        | AwaitShare => Some (handleCopy_shared r (card_settle k c))
        | AwaitUpdate => Some (handleSave_resume r (card_settle k c))
        | AwaitRevert => Some (handleRevert_resume r (card_settle k c))
        | AwaitClipboard _ _ => None
        end
      else None
  | CardTimeout =>
      if bool_decide (0 < card_timeouts c) then Some (copied_timeout c) else None
  | CardProps output => Some (set_card_output output c)
  end.

Fixpoint card_run (evs : list card_event) (c : CardState) : option CardState :=
  match evs with
  | [] => Some c
  | e :: evs' =>
      match card_step e c with
      | Some c' => card_run evs' c'
      | None => None
      end
  end.

(** ** services/api.ts: students and lesson summaries *)

Module Student.
Record t : Type := {
  id : string;
  full_name : string;
  instrument : string;
  level : string;
  parent_email : option string;
  parent_name : option string;
  notes : option string;
  is_archived : bool;
  created_at : string;
  updated_at : string;
  lesson_count : Z;
}.
End Student.

Module Lesson.
Record t : Type := {
  id : string;
  student_id : string;
  student_name : string;
  lesson_date : string;
  status : string;
  duration_seconds : option Z;
  error_message : option string;
  created_at : string;
  updated_at : string;
}.
End Lesson.

(** The argument of [studentsApi.create]; an absent optional property is
    [None]. *)
Record NewStudent : Type := {
  new_full_name : string;
  new_instrument : string;
  new_level : option string;
  new_parent_email : option string;
  new_parent_name : option string;
  new_notes : option string;
}.

(** [Promise.all([a, b])]: resolved with both results when both resolve,
    rejected when one of them rejects. *)
Definition Promise_all {A B : Type} (ra : response A) (rb : response B)
    : response (A * B) :=
  match ra, rb with
  | Resolved a, Resolved b => Resolved (a, b)
  | Rejected err, _ => Rejected err
  | _, Rejected err => Rejected err
  end.

(** [x || undefined] for a string [x]. *)
Definition or_undefined (x : string) : option string :=
  if bool_decide (x = "") then None else Some x.

(** ** pages/HomePage.tsx *)

Record Home : Type := {
  students : list Student.t;        (* useState<Student[]>([]) *)
  recentLessons : list Lesson.t;    (* useState<Lesson[]>([]) *)
  home_isLoading : bool;            (* useState(true) *)
  showAddStudent : bool;            (* useState(false) *)
  home_console : list string;       (* messages of the console.error calls *)
}.

Definition initial_home : Home :=
  {| students := []; recentLessons := []; home_isLoading := true;
     showAddStudent := false; home_console := [] |}.

(** [loadData] from [await Promise.all([studentsApi.list(), lessonsApi.list()])]
    on. *)
Definition HomePage_loadData (rs : response (list Student.t))
    (rl : response (list Lesson.t)) (h : Home) : Home :=
  match Promise_all rs rl with
  | Resolved (studentsRes, lessonsRes) =>
      {| students := studentsRes;
         recentLessons := take 5 lessonsRes;
         home_isLoading := false;
         showAddStudent := showAddStudent h;
         home_console := home_console h |}
  | Rejected _ =>
      {| students := students h;
         recentLessons := recentLessons h;
         home_isLoading := false;
         showAddStudent := showAddStudent h;
         home_console := home_console h ++ ["Failed to load data"] |}
  end.

(** The [onAdded] prop of the modal, as the closure of the render in which
    the page holds [students h]. *)
Definition onAdded (student : Student.t) (h : Home) : Home :=
  {| students := students h ++ [student];
     recentLessons := recentLessons h;
     home_isLoading := home_isLoading h;
     showAddStudent := false;
     home_console := home_console h |}.

(** A value of type [any], as far as its truthiness and what React makes
    of it as a child go: a number only by whether it is zero, an object
    only by being one. *)
#[warnings="-register-all"]
Inductive any : Type :=
| AUndefined
| ANull
| ABool (b : bool)
| ANumber (zero : bool)
| AString (text : string)
| AObject
| AArray (items : list any).

Definition any_truthy (v : any) : bool :=
  match v with
  | AUndefined | ANull => false
  | ABool b => b
  | ANumber zero => negb zero
  | AString text => negb (bool_decide (text = ""))
  | AObject | AArray _ => true
  end.

(** [v || w] *)
Definition any_or (v w : any) : any := if any_truthy v then v else w.

(** What React renders for a child: [undefined], [null], booleans and the
    empty string render nothing, strings and numbers render text, the items
    of an array are rendered in order, and an object is not valid as a
    child: [None] stands for the error React throws. *)
Inductive node : Type :=
| TextNode (text : string)
| NumberNode.

Fixpoint render_child (v : any) : option (list node) :=
  match v with
  | AUndefined | ANull | ABool _ => Some []
  | ANumber _ => Some [NumberNode]
  | AString text => Some (if bool_decide (text = "") then [] else [TextNode text])
  | AObject => None
  | AArray items =>
      (fix render_items (l : list any) : option (list node) :=
         match l with
         | [] => Some []
         | x :: l' =>
             match render_child x, render_items l' with
             | Some a, Some b => Some (a ++ b)%list
             | _, _ => None
             end
         end) items
  end.

(** The state of [AddStudentModal]. [error] is declared a string, but
    [handleSubmit] stores whatever the response carries. *)
Record AddStudentForm : Type := {
  fullName : string;        (* useState('') *)
  form_instrument : string; (* useState('Piano') *)
  form_level : string;      (* useState('BEGINNER') *)
  parentEmail : string;     (* useState('') *)
  parentName : string;      (* useState('') *)
  form_isLoading : bool;    (* useState(false) *)
  form_error : any;         (* useState('') *)
}.

(** The object [handleSubmit] passes to [studentsApi.create]. *)
Definition handleSubmit_payload (f : AddStudentForm) : NewStudent :=
  {| new_full_name := fullName f;
     new_instrument := form_instrument f;
     new_level := Some (form_level f);
     new_parent_email := or_undefined (parentEmail f);
     new_parent_name := or_undefined (parentName f);
     new_notes := None |}.

(** [handleSubmit] up to [await studentsApi.create(...)]. *)
Definition handleSubmit_begin (f : AddStudentForm) : AddStudentForm :=
  {| fullName := fullName f; form_instrument := form_instrument f;
     form_level := form_level f; parentEmail := parentEmail f;
     parentName := parentName f; form_isLoading := true;
     form_error := AString "" |}.

(** [handleSubmit] once [studentsApi.create] has settled, together with the
    page that passed [onAdded]. A rejection, which axios makes with an error
    object, carries the value of [err.response?.data?.detail], [undefined]
    when a link of that chain is missing; [err] is typed [any], so this can
    be any value. *)
Definition handleSubmit_resume (r : Student.t + any)
    (f : AddStudentForm) (h : Home) : AddStudentForm * Home :=
  let stop_loading (g : AddStudentForm) :=
    {| fullName := fullName g; form_instrument := form_instrument g;
       form_level := form_level g; parentEmail := parentEmail g;
       parentName := parentName g; form_isLoading := false;
       form_error := form_error g |} in
  match r with
  | inl data => (stop_loading f, onAdded data h)
  | inr detail =>
      (stop_loading
         {| fullName := fullName f; form_instrument := form_instrument f;
            form_level := form_level f; parentEmail := parentEmail f;
            parentName := parentName f; form_isLoading := form_isLoading f;
            form_error := any_or detail (AString "Failed to add student") |},
       h)
  end.

(** [{error && (<div ...>{error}</div>)}] in the modal: the banner with its
    children, or, for a falsy [error], no banner and [error] itself as the
    child; [None] when React throws. *)
Inductive Banner : Type :=
| NoBanner (stray : list node)
| ErrorBanner (children : list node).

Definition error_banner (error : any) : option Banner :=
  match render_child error with
  | Some nodes =>
      Some (if any_truthy error then ErrorBanner nodes else NoBanner nodes)
  | None => None
  end.

(** ** services/api.ts: the URLs of the list and get calls *)

(** [`${b}`] for a boolean. *)
Definition bool_text (b : bool) : string := if b then "true" else "false".

(** [studentsApi.list(includeArchived = false)] *)
Definition studentsApi_list_url (includeArchived : option bool) : string :=
  "/students?include_archived=" ++ bool_text (default false includeArchived).

(** [studentsApi.get(id)] *)
Definition studentsApi_get_url (id : string) : string := "/students/" ++ id.

(** [lessonsApi.list(studentId?)]: an absent or empty id adds no query. *)
Definition lessonsApi_list_url (studentId : option string) : string :=
  "/lessons" ++
  match studentId with
  | Some id => if bool_decide (id ≠ "") then "?student_id=" ++ id else ""
  | None => ""
  end.

(** ** pages/StudentPage.tsx *)

Record StudentView : Type := {
  studentId : option string;          (* useParams *)
  student : option Student.t;         (* useState<Student | null>(null) *)
  lessons : list Lesson.t;            (* useState<Lesson[]>([]) *)
  view_isLoading : bool;              (* useState(true) *)
  view_navigated : list string;       (* arguments of the navigate calls *)
  view_console : list string;         (* messages of the console.error calls *)
  view_requests : list string;        (* URLs requested, oldest first *)
}.

Definition initial_student_view (studentId : option string) : StudentView :=
  {| studentId := studentId; student := None; lessons := [];
     view_isLoading := true; view_navigated := []; view_console := [];
     view_requests := [] |}.

(** The effect: [if (studentId) loadData()], up to the [await] of
    [loadData]. The page asserts [studentId!] for the first call. *)
Definition StudentPage_effect (v : StudentView) : StudentView :=
  match studentId v with
  | Some id =>
      if bool_decide (id ≠ "") then
        {| studentId := studentId v; student := student v; lessons := lessons v;
           view_isLoading := view_isLoading v;
           view_navigated := view_navigated v; view_console := view_console v;
           view_requests :=
             view_requests v ++
             [studentsApi_get_url id; lessonsApi_list_url (studentId v)] |}
      else v
  | None => v
  end.

(** [loadData] from its [await] on. *)
Definition StudentPage_loadData (rs : response Student.t)
    (rl : response (list Lesson.t)) (v : StudentView) : StudentView :=
  match Promise_all rs rl with
  | Resolved (studentRes, lessonsRes) =>
      {| studentId := studentId v; student := Some studentRes;
         lessons := lessonsRes; view_isLoading := false;
         view_navigated := view_navigated v; view_console := view_console v;
         view_requests := view_requests v |}
  | Rejected _ =>
      {| studentId := studentId v; student := student v; lessons := lessons v;
         view_isLoading := false;
         view_navigated := view_navigated v ++ ["/"];
         view_console := view_console v ++ ["Failed to load data"];
         view_requests := view_requests v |}
  end.

(** Which of the three returns of the component is taken. *)
Inductive StudentRender : Type :=
| StudentSpinner
| StudentNothing
| StudentBody (s : Student.t) (history : list Lesson.t).

Definition StudentPage_render (v : StudentView) : StudentRender :=
  if view_isLoading v then StudentSpinner
  else
    match student v with
    | None => StudentNothing
    | Some s => StudentBody s (lessons v)
    end.

(** ** Sample data *)

Module Sample.

Definition recap : Output :=
  {| output_id := "O1"; output_type := "STUDENT_RECAP";
     content := "Great work on the scales."; is_edited := false;
     is_shared := false; output_created_at := "2024-05-01T10:05:00Z" |}.

Definition plan : Output :=
  {| output_id := "O2"; output_type := "PRACTICE_PLAN";
     content := "Ten minutes of arpeggios a day."; is_edited := false;
     is_shared := false; output_created_at := "2024-05-01T10:05:00Z" |}.

Definition plan_edited : Output :=
  {| output_id := "O2"; output_type := "PRACTICE_PLAN";
     content := "Fifteen minutes of arpeggios a day."; is_edited := true;
     is_shared := false; output_created_at := "2024-05-01T10:05:00Z" |}.

Definition lesson_with (st : string) (err : option string)
    (tr : option string) (outs : list Output) : LessonDetail :=
  {| lesson_id := "L1"; student_id := "S1"; student_name := "Ada";
     lesson_date := "2024-05-01"; status := st; duration_seconds := Some 1800%Z;
     error_message := err; created_at := "2024-05-01T10:00:00Z";
     updated_at := "2024-05-01T10:05:00Z"; transcript := tr; outputs := outs |}.

Definition uploaded : LessonDetail := lesson_with "UPLOADED" None None [].
Definition transcribing : LessonDetail := lesson_with "TRANSCRIBING" None None [].
Definition failed : LessonDetail := lesson_with "FAILED" (Some "timeout") None [].
Definition completed : LessonDetail :=
  lesson_with "COMPLETED" None (Some "Let us start with the scales.") [recap; plan].

(** The page of lesson L1 after its first load returned TRANSCRIBING. *)
Definition load_transcribing : list event :=
  [ EvEffect; EvGetSettled AwaitLoad (Resolved transcribing) ].

(** The page of lesson L1 after its first load returned FAILED, the user
    retried, and the reload returned FAILED once more. *)
Definition retry_failed_again : list event :=
  [ EvEffect; EvGetSettled AwaitLoad (Resolved failed);
    EvRetryClick; EvProcessSettled (Resolved ());
    EvGetSettled AwaitRetryLoad (Resolved failed) ].



(** An output whose type is the name of a member of [Object.prototype]. *)
Definition odd_output : Output :=
  {| output_id := "O3"; output_type := "constructor";
     content := "Notes."; is_edited := false; is_shared := false;
     output_created_at := "2024-05-01T10:05:00Z" |}.

End Sample.

(** ** Further sample runs *)

Module Scenario.

(** After the first load: the interval fires, its request fails, and the
    effect is cleaned up. *)
Definition failing_tick_then_cleanup : list event :=
  [ EvTimer 1%positive; EvGetSettled AwaitTick (Rejected "Network Error");
    EvCleanup ].

(** A retry whose process call fails, then a retry whose reload fails. *)
Definition failing_retries : list event :=
  [ EvEffect; EvGetSettled AwaitLoad (Resolved Sample.failed);
    EvRetryClick; EvProcessSettled (Rejected "Server Error");
    EvRetryClick; EvProcessSettled (Resolved ());
    EvGetSettled AwaitRetryLoad (Rejected "Network Error") ].

(** Two ticks overlap and their responses arrive out of order: the second
    request is answered first, with the completed lesson, and the first
    request is answered afterwards, with the lesson still transcribing. *)
Definition late_tick_response : list event :=
  [ EvEffect; EvGetSettled AwaitLoad (Resolved Sample.transcribing);
    EvTimer 1%positive; EvTimer 1%positive;
    EvGetSettled AwaitTick (Resolved Sample.completed);
    EvGetSettled AwaitTick (Resolved Sample.transcribing) ].

End Scenario.

Module CardScenario.

(** The card of the practice plan on the completed lesson's page. *)
Definition plan_card : CardState := initial_card Sample.plan true.

(** The same card with the editor open on a draft. *)
Definition plan_card_editing : CardState :=
  setEditContent "Fifteen minutes of arpeggios a day."
    (edit_click plan_card).

Definition recap_edited : Output :=
  {| output_id := "O1"; output_type := "STUDENT_RECAP";
     content := "Great work on the scales and the sight reading.";
     is_edited := true; is_shared := false;
     output_created_at := "2024-05-01T10:05:00Z" |}.

(** The lesson page holding the completed lesson. *)
Definition completed_page : Page :=
  setIsLoading false (setLesson (Some Sample.completed) (initial_page "L1")).

End CardScenario.

(** * Properties *)

(** ** The interval table *)

Section Intervals.

Implicit Types (s : Page) (h : handle).

Lemma cleanup_intervals s :
  poll_inv s → intervals (cleanup s) = ∅.
Proof.
  intros HI. unfold cleanup. apply map_eq; intros h.
  rewrite lookup_empty.
  destruct (pollRef s) as [p|] eqn:Hp; simpl.
  - destruct (decide (p = h)) as [->|Hne].
    + apply lookup_delete_eq.
    + rewrite lookup_delete_ne by done.
      apply not_elem_of_dom. intros Hin.
      apply HI in Hin. congruence.
  - apply not_elem_of_dom. intros Hin. apply HI in Hin. congruence.
Qed.

Lemma startPolling_cleanup s :
  startPolling s =
  set_pollRef (Some (next_handle s)) (setInterval POLL_DELAY (cleanup s)).2.
Proof. unfold startPolling, cleanup. by destruct (pollRef s). Qed.

Lemma startPolling_intervals s :
  poll_inv s → intervals (startPolling s) = {[ next_handle s := POLL_DELAY ]}.
Proof.
  intros HI. rewrite startPolling_cleanup. simpl.
  rewrite (cleanup_intervals s HI).
  assert (next_handle (cleanup s) = next_handle s) as ->
    by (unfold cleanup; by destruct (pollRef s)).
  done.
Qed.

Lemma startPolling_pollRef s :
  pollRef (startPolling s) = Some (next_handle s).
Proof. unfold startPolling. by destruct (pollRef s). Qed.

Lemma startPolling_next_handle s :
  next_handle (startPolling s) = Pos.succ (next_handle s).
Proof. unfold startPolling. by destruct (pollRef s). Qed.

Lemma poll_inv_size s : poll_inv s → size (intervals s) ≤ 1.
Proof.
  intros HI. rewrite <- size_dom.
  destruct (pollRef s) as [p|] eqn:Hp.
  - transitivity (size ({[p]} : gset handle)); [|rewrite size_singleton; lia].
    apply subseteq_size. intros h Hin. apply HI in Hin.
    rewrite Hp in Hin. set_solver.
  - assert (dom (intervals s) = ∅) as ->.
    { apply set_eq; intros h. split; [|set_solver].
      intros Hin. apply HI in Hin. congruence. }
    rewrite size_empty. lia.
Qed.

Lemma page_inv_initial id : page_inv (initial_page id).
Proof.
  split; [|split].
  - intros h. simpl. rewrite dom_empty_L. set_solver.
  - intros h d. simpl. by rewrite lookup_empty.
  - intros h. simpl. rewrite dom_empty_L. set_solver.
Qed.

Lemma page_inv_clearInterval s h :
  page_inv s → page_inv (clearInterval h s).
Proof.
  intros (HP & HD & HF). split; [|split].
  - intros h'. simpl. rewrite dom_delete_L. intros [Hin _]%elem_of_difference. by apply HP.
  - intros h' d. simpl. intros Hl. apply lookup_delete_Some in Hl as [_ Hl]. eauto.
  - intros h'. simpl. rewrite dom_delete_L. intros [Hin _]%elem_of_difference. by apply HF.
Qed.

Lemma page_inv_cleanup s : page_inv s → page_inv (cleanup s).
Proof.
  intros HI. unfold cleanup. destruct (pollRef s); [|done].
  by apply page_inv_clearInterval.
Qed.

Lemma page_inv_startPolling s : page_inv s → page_inv (startPolling s).
Proof.
  intros (HP & HD & HF). split; [|split].
  - intros h. rewrite startPolling_intervals, startPolling_pollRef by done.
    rewrite dom_singleton_L. set_solver.
  - intros h d. rewrite startPolling_intervals by done.
    intros [_ <-]%lookup_singleton_Some. done.
  - intros h. rewrite startPolling_intervals, startPolling_next_handle by done.
    rewrite dom_singleton_L. intros ->%elem_of_singleton. lia.
Qed.

(** The setters of React state, the console, the router and the request
    bookkeeping leave the interval table, the ref and the handle counter
    alone, so an invariant over those three fields carries over. *)
Lemma page_inv_frame s s' :
  intervals s' = intervals s → pollRef s' = pollRef s →
  next_handle s' = next_handle s →
  page_inv s → page_inv s'.
Proof.
  intros Hi Hp Hn (HP & HD & HF). split; [|split].
  - intros h. rewrite Hi, Hp. apply HP.
  - intros h d. rewrite Hi. apply HD.
  - intros h. rewrite Hi, Hn. apply HF.
Qed.

Lemma page_inv_loadLesson_resume r s :
  page_inv s → page_inv (loadLesson_resume r s).
Proof.
  intros HI. unfold loadLesson_resume. cbv zeta.
  match goal with
  | |- page_inv (setIsLoading _ ?x) => apply (page_inv_frame x); [done..|]
  end.
  destruct r as [data|err].
  - assert (page_inv (setLesson (Some data) s)) as HI1
      by (by apply (page_inv_frame s)).
    case (Js.includes _ _); [by apply page_inv_startPolling|done].
  - by apply (page_inv_frame s).
Qed.

Lemma page_inv_pollTick_resume r s :
  page_inv s → page_inv (pollTick_resume r s).
Proof.
  intros HI. unfold pollTick_resume. destruct r as [data|err].
  - assert (page_inv (setLesson (Some data) s)) as HI1
      by (by apply (page_inv_frame s)).
    case (negb _); [|done].
    destruct (pollRef (setLesson (Some data) s)) as [p|] eqn:Hp; [|done].
    destruct HI as (HP & HD & HF). simpl in Hp.
    split; [|split].
    + intros h. simpl. rewrite dom_delete_L.
      intros [Hin Hne]%elem_of_difference.
      apply HP in Hin. rewrite Hin in Hp.
      apply not_elem_of_singleton in Hne. congruence.
    + intros h d. simpl. intros [_ Hl]%lookup_delete_Some.
      by apply HD in Hl.
    + intros h. simpl. rewrite dom_delete_L.
      intros [Hin _]%elem_of_difference. by apply HF.
  - by apply (page_inv_frame s).
Qed.

Lemma page_inv_handleRetry_loaded r s :
  page_inv s → page_inv (handleRetry_loaded r s).
Proof.
  intros HI. unfold handleRetry_loaded.
  apply (page_inv_frame (startPolling (loadLesson_resume r s))); try done.
  by apply page_inv_startPolling, page_inv_loadLesson_resume.
Qed.

Lemma page_inv_handleOutputUpdate cap u s :
  page_inv s → page_inv (handleOutputUpdate cap u s).
Proof.
  intros HI. unfold handleOutputUpdate. destruct cap; [|done].
  by apply (page_inv_frame s).
Qed.

Lemma page_inv_step e s s' :
  step e s = Some s' → page_inv s → page_inv s'.
Proof.
  intros Hstep HI. destruct e as [| |h|k r|r| |cap u]; simpl in Hstep.
  - injection Hstep as <-. unfold effect.
    case_bool_decide; [|done]. by apply (page_inv_frame s).
  - injection Hstep as <-. by apply page_inv_cleanup.
  - case_bool_decide; [|done]. injection Hstep as <-.
    by apply (page_inv_frame s).
  - case_bool_decide; [|done].
    assert (page_inv (settle k s)) by (by apply (page_inv_frame s)).
    destruct k; try done; injection Hstep as <-.
    + by apply page_inv_loadLesson_resume.
    + by apply page_inv_pollTick_resume.
    + by apply page_inv_handleRetry_loaded.
  - case_bool_decide; [|done]. injection Hstep as <-.
    destruct r; by apply (page_inv_frame s).
  - destruct (retry_button_shown s); [|done]. injection Hstep as <-.
    by apply (page_inv_frame s).
  - injection Hstep as <-. by apply page_inv_handleOutputUpdate.
Qed.

Lemma page_inv_run evs s s' :
  run evs s = Some s' → page_inv s → page_inv s'.
Proof.
  revert s. induction evs as [|e evs IH]; intros s; simpl.
  - by intros [= <-].
  - destruct (step e s) as [s1|] eqn:Hstep; [|done].
    intros Hrun HI. eapply IH; [done|]. by eapply page_inv_step.
Qed.

Lemma page_inv_reachable id s : reachable id s → page_inv s.
Proof.
  intros [evs Hrun]. eapply page_inv_run; [done|]. apply page_inv_initial.
Qed.

End Intervals.

(** ** Single steps *)

Section Steps.

Implicit Types (s : Page) (r : response LessonDetail).

Lemma effect_initial id :
  id ≠ "" → effect (initial_page id) = loadLesson_begin AwaitLoad (initial_page id).
Proof. intros Hid. unfold effect. by rewrite bool_decide_eq_true_2. Qed.

Lemma step_load_settled r s :
  AwaitLoad ∈ inflight s →
  step (EvGetSettled AwaitLoad r) s = Some (loadLesson_resume r (settle AwaitLoad s)).
Proof. intros Hin. simpl. by rewrite bool_decide_eq_true_2. Qed.

Lemma step_tick_settled r s :
  AwaitTick ∈ inflight s →
  step (EvGetSettled AwaitTick r) s = Some (pollTick_resume r (settle AwaitTick s)).
Proof. intros Hin. simpl. by rewrite bool_decide_eq_true_2. Qed.

Lemma step_retry_load_settled r s :
  AwaitRetryLoad ∈ inflight s →
  step (EvGetSettled AwaitRetryLoad r) s =
  Some (handleRetry_loaded r (settle AwaitRetryLoad s)).
Proof. intros Hin. simpl. by rewrite bool_decide_eq_true_2. Qed.

Lemma step_process_settled (r : response unit) s :
  AwaitProcess ∈ inflight s →
  step (EvProcessSettled r) s =
  Some (handleRetry_processed r (settle AwaitProcess s)).
Proof. intros Hin. simpl. by rewrite bool_decide_eq_true_2. Qed.

Lemma step_timer h s :
  h ∈ dom (intervals s) → step (EvTimer h) s = Some (pollTick_begin s).
Proof. intros Hin. simpl. by rewrite bool_decide_eq_true_2. Qed.

Lemma step_timer_inactive h s :
  h ∉ dom (intervals s) → step (EvTimer h) s = None.
Proof. intros Hin. simpl. by rewrite bool_decide_eq_false_2. Qed.

Lemma run_cons e evs s s1 :
  step e s = Some s1 → run (e :: evs) s = run evs s1.
Proof. intros Hstep. simpl. by rewrite Hstep. Qed.

Lemma run_app evs1 evs2 s s1 :
  run evs1 s = Some s1 → run (evs1 ++ evs2) s = run evs2 s1.
Proof.
  revert s. induction evs1 as [|e evs1 IH]; intros s; simpl.
  - by intros [= <-].
  - destruct (step e s); [apply IH|done].
Qed.

(** The first load of a fresh page, from the effect to the settled
    request. *)
Lemma run_first_load id r :
  id ≠ "" →
  run [EvEffect; EvGetSettled AwaitLoad r] (initial_page id) =
  Some (loadLesson_resume r
          (settle AwaitLoad (loadLesson_begin AwaitLoad (initial_page id)))).
Proof.
  intros Hid. unfold run. unfold step at 1.
  rewrite effect_initial by done.
  rewrite step_load_settled; [done|]. simpl. constructor.
Qed.

Lemma lessonId_startPolling s : lessonId (startPolling s) = lessonId s.
Proof. unfold startPolling. by destruct (pollRef s). Qed.

Lemma lessonId_loadLesson_resume r s :
  lessonId (loadLesson_resume r s) = lessonId s.
Proof.
  unfold loadLesson_resume. destruct r as [data|err]; [|done].
  case (Js.includes _ _); [|done].
  exact (lessonId_startPolling (setLesson (Some data) s)).
Qed.

Lemma lessonId_pollTick_resume r s :
  lessonId (pollTick_resume r s) = lessonId s.
Proof.
  unfold pollTick_resume. destruct r as [data|err]; [|done].
  case (negb _); [|done]. simpl. by destruct (pollRef s).
Qed.

Lemma lessonId_step e s s' : step e s = Some s' → lessonId s' = lessonId s.
Proof.
  destruct e as [| |h|k r|r| |cap u]; simpl.
  - intros [= <-]. unfold effect. by case_bool_decide.
  - intros [= <-]. unfold cleanup. by destruct (pollRef s).
  - case_bool_decide; [|done]. by intros [= <-].
  - case_bool_decide; [|done]. destruct k; try done; intros [= <-].
    + by rewrite lessonId_loadLesson_resume.
    + by rewrite lessonId_pollTick_resume.
    + transitivity (lessonId (loadLesson_resume r (settle AwaitRetryLoad s))).
      * exact (lessonId_startPolling _).
      * by rewrite lessonId_loadLesson_resume.
  - case_bool_decide; [|done]. intros [= <-]. by destruct r.
  - destruct (retry_button_shown s); [|done]. by intros [= <-].
  - intros [= <-]. unfold handleOutputUpdate. by destruct cap.
Qed.

Lemma lessonId_run evs s s' : run evs s = Some s' → lessonId s' = lessonId s.
Proof.
  revert s. induction evs as [|e evs IH]; intros s; simpl.
  - by intros [= <-].
  - destruct (step e s) as [s1|] eqn:Hstep; [|done].
    intros Hrun. rewrite (IH _ Hrun). by eapply lessonId_step.
Qed.

End Steps.

(** ** The poll timer *)

Local Ltac by_vm := vm_compute; reflexivity.

Local Ltac from_reachable H :=
  let HI := fresh "HI" in
  pose proof (page_inv_run _ _ _ H (page_inv_initial _)) as HI;
  let HP := fresh "HP" in let HD := fresh "HD" in let HF := fresh "HF" in
  pose proof HI as (HP & HD & HF).

Lemma loadLesson_resume_processing data s :
  Js.includes PROCESSING_STATUSES (status data) = true →
  loadLesson_resume (Resolved data) s =
  setIsLoading false (startPolling (setLesson (Some data) s)).
Proof. intros H. unfold loadLesson_resume. by rewrite H. Qed.

Lemma loadLesson_resume_not_processing data s :
  Js.includes PROCESSING_STATUSES (status data) = false →
  loadLesson_resume (Resolved data) s =
  setIsLoading false (setLesson (Some data) s).
Proof. intros H. unfold loadLesson_resume. by rewrite H. Qed.

(** C1. In every state the page can reach at most one interval is active.
    In such a state [startPolling] cancels whatever interval was active and
    leaves exactly one, the freshly registered one with the 2000 ms delay;
    called twice in a row it still leaves exactly one; and so does the
    post-load step of [loadLesson] for a lesson whose status is in the
    processing set. *)
Theorem at_most_one_poll_timer (id : string) (evs : list event) (s : Page)
    (data : LessonDetail)
    (Hrun : run evs (initial_page id) = Some s)
    (Hproc : Js.includes PROCESSING_STATUSES (status data) = true) :
  size (intervals s) ≤ 1 ∧
  intervals (startPolling s) = {[ next_handle s := POLL_DELAY ]} ∧
  (∀ h, h ∈ dom (intervals s) → h ∉ dom (intervals (startPolling s))) ∧
  size (intervals (startPolling s)) = 1 ∧
  size (intervals (startPolling (startPolling s))) = 1 ∧
  size (intervals (loadLesson_resume (Resolved data) s)) = 1.
Proof.
  from_reachable Hrun.
  assert (∀ s0, poll_inv s0 → size (intervals (startPolling s0)) = 1) as Hone.
  { intros s0 H0. rewrite startPolling_intervals by done.
    apply map_size_singleton. }
  split; [by apply poll_inv_size|].
  split; [by apply startPolling_intervals|].
  split.
  { intros h Hin. rewrite startPolling_intervals, dom_singleton_L by done.
    apply HF in Hin. intros ->%elem_of_singleton. lia. }
  split; [by apply Hone|].
  split; [apply Hone; by apply page_inv_startPolling|].
  rewrite loadLesson_resume_processing by done.
  apply (Hone (setLesson (Some data) s)). intros h. apply HP.
Qed.

Lemma at_most_one_poll_timer_witness :
  ∃ s,
    run Sample.load_transcribing (initial_page "L1") = Some s ∧
    Js.includes PROCESSING_STATUSES (status Sample.uploaded) = true ∧
    size (intervals s) ≤ 1 ∧
    size (intervals (startPolling (startPolling s))) = 1.
Proof.
  eexists. split; [by_vm|]. split; [by_vm|].
  match goal with
  | |- size (intervals ?s) ≤ 1 ∧ _ =>
      pose proof (at_most_one_poll_timer "L1" Sample.load_transcribing s
                    Sample.uploaded ltac:(by_vm) ltac:(by_vm))
        as (H1 & _ & _ & _ & H2 & _)
  end.
  split; [exact H1|exact H2].
Defined.

(** ** loadLesson *)

Lemma terminal_not_processing st :
  Js.includes TERMINAL_STATUSES st = true →
  Js.includes PROCESSING_STATUSES st = false.
Proof.
  unfold Js.includes. intros Hin%bool_decide_eq_true.
  unfold TERMINAL_STATUSES in Hin.
  rewrite !elem_of_cons, elem_of_nil in Hin.
  destruct Hin as [->|[->|[]]]; reflexivity.
Qed.

(** C3, as the spec states it, fails. After a retry whose reload returned
    FAILED again, [handleRetry] has started a poll; a load that now returns
    COMPLETED runs the post-load step of [loadLesson] with that interval
    active, and the interval is still active afterwards. *)
Lemma loadLesson_terminal_keeps_active_timer :
  ∃ s,
    run Sample.retry_failed_again (initial_page "L1") = Some s ∧
    Js.includes TERMINAL_STATUSES (status Sample.completed) = true ∧
    intervals s = {[ 1%positive := POLL_DELAY ]} ∧
    intervals (loadLesson_resume (Resolved Sample.completed) s) =
      {[ 1%positive := POLL_DELAY ]} ∧
    size (intervals (loadLesson_resume (Resolved Sample.completed) s)) = 1.
Proof.
  eexists. split; [by_vm|]. do 3 (split; [by_vm|]). by_vm.
Qed.

(** C3, amended. For a lesson whose status is terminal the post-load step of
    [loadLesson] starts no interval and cancels none: the interval table and
    [pollRef] are as before the load, so no interval is active afterwards
    when none was active before. That is the case for the load the effect
    starts on a fresh page, which leaves the page with the loaded lesson
    and no active interval. *)
Theorem loadLesson_terminal_starts_no_timer (id : string) (s : Page)
    (data : LessonDetail)
    (Hid : id ≠ "")
    (Hterm : Js.includes TERMINAL_STATUSES (status data) = true) :
  intervals (loadLesson_resume (Resolved data) s) = intervals s ∧
  pollRef (loadLesson_resume (Resolved data) s) = pollRef s ∧
  next_handle (loadLesson_resume (Resolved data) s) = next_handle s ∧
  lesson (loadLesson_resume (Resolved data) s) = Some data ∧
  (intervals s = ∅ → intervals (loadLesson_resume (Resolved data) s) = ∅) ∧
  ∃ s', run [EvEffect; EvGetSettled AwaitLoad (Resolved data)] (initial_page id)
          = Some s' ∧
        lesson s' = Some data ∧ intervals s' = ∅ ∧ pollRef s' = None.
Proof.
  apply terminal_not_processing in Hterm.
  rewrite loadLesson_resume_not_processing by done.
  repeat split; try done.
  eexists. split; [by apply run_first_load|].
  by rewrite loadLesson_resume_not_processing.
Qed.

Lemma loadLesson_terminal_starts_no_timer_witness :
  "L1" ≠ "" ∧
  Js.includes TERMINAL_STATUSES (status Sample.failed) = true ∧
  intervals (loadLesson_resume (Resolved Sample.failed) (initial_page "L1")) = ∅.
Proof.
  split; [done|]. split; [reflexivity|].
  apply (loadLesson_terminal_starts_no_timer "L1" (initial_page "L1") Sample.failed);
    [done|reflexivity|reflexivity].
Defined.

(** C6. When the request of [loadLesson] fails, the error is logged, the page
    navigates to "/", and [isLoading] is cleared. No further request is made
    (the load is not retried), no interval is registered, and the held
    lesson is untouched. On a fresh page the whole load therefore consists
    of one request, ends at "/", and leaves no interval behind. *)
Theorem loadLesson_failure (id : string) (s : Page) (err : string)
    (Hid : id ≠ "") :
  let s' := loadLesson_resume (Rejected err) s in
  navigated s' = (navigated s ++ ["/"])%list ∧
  console s' = (console s ++ ["Failed to load lesson"])%list ∧
  requests s' = requests s ∧
  inflight s' = inflight s ∧
  intervals s' = intervals s ∧
  pollRef s' = pollRef s ∧
  next_handle s' = next_handle s ∧
  lesson s' = lesson s ∧
  isLoading s' = false ∧
  ∃ s1, run [EvEffect; EvGetSettled AwaitLoad (Rejected err)] (initial_page id)
          = Some s1 ∧
        requests s1 = [ApiGet id] ∧ inflight s1 = [] ∧
        navigated s1 = ["/"] ∧ intervals s1 = ∅ ∧ pollRef s1 = None ∧
        lesson s1 = None.
Proof.
  repeat split; try done.
  eexists. split; [by apply run_first_load|]. done.
Qed.

Lemma loadLesson_failure_witness :
  "L1" ≠ "" ∧
  navigated (loadLesson_resume (Rejected "Network Error") (initial_page "L1")) = ["/"].
Proof.
  split; [done|].
  apply (loadLesson_failure "L1" (initial_page "L1") "Network Error"). done.
Defined.

(** ** The interval callback *)

(** C4. In a state the page can reach, every active interval has the
    2000 ms delay; when it fires, the callback requests the lesson again.
    When that request resolves, the held lesson becomes the fetched one. If
    the fetched status is in the processing set the interval table and
    [pollRef] stay as they are, so the interval keeps firing; otherwise no
    interval is active afterwards and [pollRef] is [null]. *)
Theorem pollTick_success (id : string) (evs : list event) (s : Page)
    (data : LessonDetail)
    (Hrun : run evs (initial_page id) = Some s) :
  (∀ h, h ∈ dom (intervals s) →
     intervals s !! h = Some POLL_DELAY ∧
     step (EvTimer h) s = Some (pollTick_begin s) ∧
     requests (pollTick_begin s) = (requests s ++ [ApiGet id])%list ∧
     AwaitTick ∈ inflight (pollTick_begin s)) ∧
  lesson (pollTick_resume (Resolved data) s) = Some data ∧
  (if Js.includes PROCESSING_STATUSES (status data)
   then intervals (pollTick_resume (Resolved data) s) = intervals s ∧
        pollRef (pollTick_resume (Resolved data) s) = pollRef s
   else intervals (pollTick_resume (Resolved data) s) = ∅ ∧
        pollRef (pollTick_resume (Resolved data) s) = None).
Proof.
  from_reachable Hrun. pose proof (lessonId_run _ _ _ Hrun) as Hid.
  simpl in Hid. split; [|split].
  - intros h Hin. split; [|split; [|split]].
    + apply elem_of_dom in Hin as [d Hd]. by rewrite Hd, (HD _ _ Hd).
    + by apply step_timer.
    + simpl. by rewrite Hid.
    + simpl. apply elem_of_app. right. constructor.
  - unfold pollTick_resume. case (negb _); [|done]. simpl.
    by destruct (pollRef s).
  - unfold pollTick_resume.
    destruct (Js.includes PROCESSING_STATUSES (status data)); simpl; [done|].
    pose proof (cleanup_intervals s HP) as Hc. unfold cleanup in Hc.
    destruct (pollRef s) eqn:Hp; (split; [exact Hc|]); [done|exact Hp].
Qed.

(** The scenario of the spec: the load of L1 returns TRANSCRIBING, the
    interval fires, and the tick returns COMPLETED with two outputs. *)
Lemma pollTick_success_witness :
  ∃ s,
    run (Sample.load_transcribing ++ [EvTimer 1%positive]) (initial_page "L1")
      = Some s ∧
    intervals s = {[ 1%positive := POLL_DELAY ]} ∧
    lesson (pollTick_resume (Resolved Sample.completed) s) = Some Sample.completed ∧
    intervals (pollTick_resume (Resolved Sample.completed) s) = ∅ ∧
    pollRef (pollTick_resume (Resolved Sample.completed) s) = None.
Proof.
  eexists. split; [by_vm|]. split; [by_vm|].
  match goal with
  | |- lesson (pollTick_resume _ ?s) = _ ∧ _ =>
      pose proof (pollTick_success "L1"
                    (Sample.load_transcribing ++ [EvTimer 1%positive]) s
                    Sample.completed ltac:(by_vm)) as (_ & Hl & Hi)
  end.
  split; [exact Hl|exact Hi].
Defined.

(** C5. When the request of a tick fails, the callback only logs the error:
    the held lesson, the interval table, [pollRef] and every other field but
    the console are as before. Each interval that was active is still
    registered with the 2000 ms delay and can fire again. *)
Theorem pollTick_failure (id : string) (evs : list event) (s : Page)
    (err : string)
    (Hrun : run evs (initial_page id) = Some s) :
  let s' := pollTick_resume (Rejected err) s in
  lesson s' = lesson s ∧
  intervals s' = intervals s ∧
  pollRef s' = pollRef s ∧
  next_handle s' = next_handle s ∧
  isLoading s' = isLoading s ∧
  isRetrying s' = isRetrying s ∧
  navigated s' = navigated s ∧
  requests s' = requests s ∧
  inflight s' = inflight s ∧
  console s' = (console s ++ ["Polling error"])%list ∧
  ∀ h, h ∈ dom (intervals s) →
    intervals s' !! h = Some POLL_DELAY ∧
    step (EvTimer h) s' = Some (pollTick_begin s').
Proof.
  from_reachable Hrun. do 10 (split; [done|]).
  intros h Hin. split; [|by apply step_timer].
  simpl. apply elem_of_dom in Hin as [d Hd]. by rewrite Hd, (HD _ _ Hd).
Qed.

Lemma pollTick_failure_witness :
  ∃ s,
    run (Sample.load_transcribing ++ [EvTimer 1%positive]) (initial_page "L1")
      = Some s ∧
    lesson (pollTick_resume (Rejected "Network Error") s) = Some Sample.transcribing ∧
    intervals (pollTick_resume (Rejected "Network Error") s)
      = {[ 1%positive := POLL_DELAY ]}.
Proof.
  eexists. split; [by_vm|].
  match goal with
  | |- lesson (pollTick_resume _ ?s) = _ ∧ _ =>
      pose proof (pollTick_failure "L1"
                    (Sample.load_transcribing ++ [EvTimer 1%positive]) s
                    "Network Error" ltac:(by_vm)) as (Hl & Hi & _)
  end.
  split; [exact Hl|exact Hi].
Defined.

(** ** Cancellation while a tick is in flight *)


Lemma loadLesson_resume_next_handle r s :
  (next_handle s ≤ next_handle (loadLesson_resume r s))%positive.
Proof.
  unfold loadLesson_resume. destruct r as [data|err]; [|done].
  case (Js.includes _ _); [|done].
  change (next_handle s ≤ next_handle (startPolling (setLesson (Some data) s)))%positive.
  rewrite startPolling_next_handle. simpl. lia.
Qed.





(** ** handleRetry *)

(** C7, as the spec states it, fails: a held FAILED lesson does not exclude
    an active interval. [handleRetry] calls [startPolling] after the reload
    whatever status the reload returned, so when the reload returns FAILED
    again the page holds a FAILED lesson and polls it. *)
Lemma retry_polls_failed_lesson :
  ∃ s,
    run Sample.retry_failed_again (initial_page "L1") = Some s ∧
    lesson s = Some Sample.failed ∧
    status Sample.failed = "FAILED" ∧
    pollRef s = Some 1%positive ∧
    intervals s = {[ 1%positive := POLL_DELAY ]} ∧
    size (intervals s) = 1.
Proof.
  eexists. split; [vm_compute; reflexivity|].
  do 4 (split; [vm_compute; reflexivity|]). vm_compute; reflexivity.
Qed.

(** C7, amended. A first load that returns a FAILED lesson registers no
    interval and shows the retry button. In every state the page can reach
    in which the retry button is shown (a FAILED lesson is held), a click
    on it sets [isRetrying] and calls [lessonsApi.process]; only when that
    call has resolved is the lesson requested again; and when the reload
    resolves, whatever the status of the reloaded lesson, [handleRetry] ends
    with [loadLesson]'s continuation followed by [startPolling]: the
    reloaded lesson is held, [isRetrying] is cleared, and exactly one
    interval is active, a fresh one with the 2000 ms delay that [pollRef]
    names. So polling resumes when the reloaded status is UPLOADED, and a
    held FAILED status does not exclude an active interval. *)
Theorem retry_resumes_polling (id : string) (evs : list event) (s : Page)
    (failed fresh : LessonDetail)
    (Hrun : run evs (initial_page id) = Some s)
    (Hshown : retry_button_shown s = true) :
  (id ≠ "" → status failed = "FAILED" →
   ∃ s0,
     run [EvEffect; EvGetSettled AwaitLoad (Resolved failed)] (initial_page id)
       = Some s0 ∧
     lesson s0 = Some failed ∧ intervals s0 = ∅ ∧ pollRef s0 = None ∧
     retry_button_shown s0 = true) ∧
  (∃ l, lesson s = Some l ∧ status l = "FAILED") ∧
  ∃ s1 s2 s3,
    step EvRetryClick s = Some s1 ∧
    isRetrying s1 = true ∧ intervals s1 = intervals s ∧ lesson s1 = lesson s ∧
    requests s1 = (requests s ++ [ApiProcess id])%list ∧
    step (EvProcessSettled (Resolved ())) s1 = Some s2 ∧
    intervals s2 = intervals s ∧ lesson s2 = lesson s ∧
    requests s2 = (requests s ++ [ApiProcess id; ApiGet id])%list ∧
    step (EvGetSettled AwaitRetryLoad (Resolved fresh)) s2 = Some s3 ∧
    s3 = setIsRetrying false
           (startPolling
              (loadLesson_resume (Resolved fresh) (settle AwaitRetryLoad s2))) ∧
    lesson s3 = Some fresh ∧ isRetrying s3 = false ∧
    requests s3 = requests s2 ∧
    size (intervals s3) = 1 ∧
    ∃ h, pollRef s3 = Some h ∧ intervals s3 = {[ h := POLL_DELAY ]} ∧
         h ∉ dom (intervals s).
Proof.
  from_reachable Hrun. pose proof (lessonId_run _ _ _ Hrun) as Hid.
  simpl in Hid.
  split.
  { intros Hne Hfailed.
    assert (Js.includes PROCESSING_STATUSES (status failed) = false) as Hnp
      by (by rewrite Hfailed).
    eexists. split.
    - rewrite run_first_load by done.
      by rewrite loadLesson_resume_not_processing.
    - do 3 (split; [done|]). unfold retry_button_shown. simpl.
      by rewrite bool_decide_eq_true_2. }
  split.
  { unfold retry_button_shown in Hshown.
    apply andb_true_iff in Hshown as [_ Hl].
    destruct (lesson s) as [l|]; [|done].
    exists l. split; [done|]. by apply bool_decide_eq_true in Hl. }
  set (s1 := handleRetry_begin s).
  set (s2 := handleRetry_processed (Resolved ()) (settle AwaitProcess s1)).
  set (x := loadLesson_resume (Resolved fresh) (settle AwaitRetryLoad s2)).
  assert (step EvRetryClick s = Some s1) as Hstep1
    by (simpl; by rewrite Hshown).
  assert (step (EvProcessSettled (Resolved ())) s1 = Some s2) as Hstep2.
  { apply step_process_settled. simpl. apply elem_of_app. right. constructor. }
  assert (step (EvGetSettled AwaitRetryLoad (Resolved fresh)) s2
          = Some (handleRetry_loaded (Resolved fresh) (settle AwaitRetryLoad s2)))
    as Hstep3.
  { apply step_retry_load_settled. simpl. apply elem_of_app. right.
    constructor. }
  assert (page_inv x) as (HPx & _ & _).
  { apply page_inv_loadLesson_resume.
    apply (page_inv_frame s2); [done..|].
    eapply page_inv_step; [exact Hstep2|].
    eapply page_inv_step; [exact Hstep1|]. exact HI. }
  assert (∀ y, lesson (startPolling y) = lesson y ∧
               requests (startPolling y) = requests y) as Hsp
    by (intros y; unfold startPolling; by destruct (pollRef y)).
  assert (lesson x = Some fresh ∧ requests x = requests s2) as (Hlx & Hrx).
  { unfold x, loadLesson_resume. case (Js.includes _ _); [|done].
    destruct (Hsp (setLesson (Some fresh) (settle AwaitRetryLoad s2)))
      as [Hl Hr].
    split; [exact Hl|exact Hr]. }
  assert (next_handle s ≤ next_handle x)%positive as Hle
    by exact (loadLesson_resume_next_handle (Resolved fresh)
                (settle AwaitRetryLoad s2)).
  exists s1, s2, (handleRetry_loaded (Resolved fresh) (settle AwaitRetryLoad s2)).
  split; [done|]. do 3 (split; [done|]).
  split; [simpl; by rewrite Hid|].
  split; [done|]. do 2 (split; [done|]).
  split; [simpl; by rewrite Hid, <- app_assoc|].
  split; [done|].
  unfold handleRetry_loaded. fold x.
  split; [done|].
  destruct (Hsp x) as (Hl & Hr).
  split; [exact (eq_trans Hl Hlx)|]. split; [done|].
  split; [exact (eq_trans Hr Hrx)|].
  change (intervals (setIsRetrying false (startPolling x)))
    with (intervals (startPolling x)).
  change (pollRef (setIsRetrying false (startPolling x)))
    with (pollRef (startPolling x)).
  rewrite startPolling_intervals, startPolling_pollRef by done.
  split; [apply map_size_singleton|].
  exists (next_handle x). do 2 (split; [done|]).
  intros Hin. apply HF in Hin. lia.
Qed.

(** The scenario of the spec: FAILED with error message "timeout", then a
    retry whose reload returns UPLOADED. *)
Lemma retry_resumes_polling_witness :
  ∃ s s3,
    run [EvEffect; EvGetSettled AwaitLoad (Resolved Sample.failed)]
      (initial_page "L1") = Some s ∧
    retry_button_shown s = true ∧
    run [ EvRetryClick; EvProcessSettled (Resolved ());
          EvGetSettled AwaitRetryLoad (Resolved Sample.uploaded) ] s = Some s3 ∧
    lesson s3 = Some Sample.uploaded ∧
    size (intervals s3) = 1.
Proof.
  eexists.
  match goal with
  | |- ∃ s3, run ?evs _ = Some ?s ∧ _ =>
      assert (run evs (initial_page "L1") = Some s) as Hrun by by_vm;
      assert (retry_button_shown s = true) as Hshown by by_vm;
      destruct (retry_resumes_polling "L1" evs s Sample.failed Sample.uploaded
                  Hrun Hshown)
        as (_ & _ & s1 & s2 & s3 & H1 & _ & _ & _ & _ & H2 & _ & _ & _ & H3
            & _ & Hl & _ & _ & Hsz & _)
  end.
  exists s3. split; [exact Hrun|]. split; [exact Hshown|].
  split; [|split; [exact Hl|exact Hsz]].
  rewrite (run_cons _ _ _ _ H1), (run_cons _ _ _ _ H2), (run_cons _ _ _ _ H3).
  reflexivity.
Defined.

(** ** handleOutputUpdate *)



(** ** The badge and the card header *)

Section Lookup.

Context {A : Type}.
Implicit Types (own : list (string * A)) (key : string).

Lemma get_own own key a :
  (list_to_map own : gmap string A) !! key = Some a →
  Js.get (list_to_map own) key = Js.Own a.
Proof. intros H. unfold Js.get. by rewrite H. Qed.

Lemma get_unknown own key :
  key ∉ own.*1 → key ∉ Js.object_prototype_keys →
  Js.get (list_to_map own : gmap string A) key = Js.Undefined.
Proof.
  intros Hown Hproto. unfold Js.get.
  rewrite (not_elem_of_list_to_map_1 own key Hown).
  by rewrite bool_decide_eq_false_2.
Qed.

Lemma get_inherited own key :
  key ∉ own.*1 → key ∈ Js.object_prototype_keys →
  Js.get (list_to_map own : gmap string A) key = Js.Inherited key.
Proof.
  intros Hown Hproto. unfold Js.get.
  rewrite (not_elem_of_list_to_map_1 own key Hown).
  by rewrite bool_decide_eq_true_2.
Qed.

End Lookup.

(** Rendering the badge never throws. *)
Lemma StatusBadge_never_throws (status : string) :
  ∃ span, StatusBadge status = inr span.
Proof.
  unfold StatusBadge, Js.or, Js.get.
  destruct (statusConfig !! status); [by eexists|].
  case (bool_decide _); by eexists.
Qed.

(** Each of the seven statuses shows its configured label and colour. *)
Lemma StatusBadge_enum :
  StatusBadge "CREATED" =
    inr {| className := badge_classes ++ "bg-gray-600"; children := Some "Created" |} ∧
  StatusBadge "UPLOADED" =
    inr {| className := badge_classes ++ "bg-blue-600"; children := Some "Uploaded" |} ∧
  StatusBadge "TRANSCRIBING" =
    inr {| className := badge_classes ++ "bg-yellow-600";
           children := Some "Transcribing..." |} ∧
  StatusBadge "EXTRACTING" =
    inr {| className := badge_classes ++ "bg-yellow-600";
           children := Some "Analyzing..." |} ∧
  StatusBadge "GENERATING" =
    inr {| className := badge_classes ++ "bg-yellow-600";
           children := Some "Generating..." |} ∧
  StatusBadge "COMPLETED" =
    inr {| className := badge_classes ++ "bg-emerald-600";
           children := Some "Completed" |} ∧
  StatusBadge "FAILED" =
    inr {| className := badge_classes ++ "bg-red-600"; children := Some "Failed" |}.
Proof. repeat split; vm_compute; reflexivity. Qed.

(** A status that is neither one of the seven nor the name of a member of
    [Object.prototype] is shown as it is, in the neutral colour. *)
Lemma StatusBadge_fallback (status : string) :
  status ∉ status_enum → status ∉ Js.object_prototype_keys →
  StatusBadge status =
  inr {| className := badge_classes ++ "bg-gray-600"; children := Some status |}.
Proof.
  intros Henum Hproto. unfold StatusBadge, statusConfig.
  by rewrite get_unknown.
Qed.

(** C8 fails on the code for a status that names a member of
    [Object.prototype]. The status "constructor" is not one of the seven,
    yet [statusConfig[status]] finds the inherited member, which is truthy,
    so the fallback after [||] is not taken: the badge has no text and its
    class list ends in "undefined" where the fallback would have shown the
    status itself in "bg-gray-600". The same holds for every inherited
    name. *)
Theorem StatusBadge_inherited_key :
  ("constructor" ∉ status_enum) ∧
  StatusBadge "constructor" =
    inr {| className := badge_classes ++ "undefined"; children := None |} ∧
  StatusBadge "constructor" ≠
    inr {| className := badge_classes ++ "bg-gray-600";
           children := Some "constructor" |} ∧
  Forall
    (λ key, StatusBadge key =
            inr {| className := badge_classes ++ "undefined"; children := None |})
    Js.object_prototype_keys.
Proof.
  split. { apply (bool_decide_unpack _). vm_compute. exact I. }
  split; [vm_compute; reflexivity|].
  split; [vm_compute; discriminate|].
  repeat constructor.
Qed.

(** Rendering the header of the card never throws. *)
Lemma OutputCard_header_never_throws (output : Output) :
  ∃ hd, OutputCard_header output = inr hd.
Proof.
  unfold OutputCard_header, Js.or, Js.get.
  destruct (outputTypeLabels !! output_type output); [by eexists|].
  case (bool_decide _); by eexists.
Qed.

(** Each of the three known output types shows its configured title and
    icon, whatever the other fields of the output are. *)
Lemma OutputCard_header_enum (output : Output) :
  (output_type output = "STUDENT_RECAP" →
   OutputCard_header output =
   inr {| header_icon := Some "📝"; header_title := Some "Student Recap" |}) ∧
  (output_type output = "PRACTICE_PLAN" →
   OutputCard_header output =
   inr {| header_icon := Some "📅"; header_title := Some "Practice Plan" |}) ∧
  (output_type output = "PARENT_EMAIL" →
   OutputCard_header output =
   inr {| header_icon := Some "✉️"; header_title := Some "Parent Email" |}).
Proof.
  unfold OutputCard_header.
  repeat split; intros ->; vm_compute; reflexivity.
Qed.

(** An output type that is neither one of the three nor the name of a member
    of [Object.prototype] is its own title, with the default icon. *)
Lemma OutputCard_header_fallback (output : Output) :
  output_type output ∉ output_type_enum →
  output_type output ∉ Js.object_prototype_keys →
  OutputCard_header output =
  inr {| header_icon := Some "📄"; header_title := Some (output_type output) |}.
Proof.
  intros Henum Hproto. unfold OutputCard_header, outputTypeLabels.
  by rewrite get_unknown.
Qed.

(** C10 fails on the code for an output type that names a member of
    [Object.prototype]. For the output type "constructor", which is not one
    of the three, [outputTypeLabels[output.output_type]] finds the inherited
    member, so the fallback after [||] is not taken: the header shows
    neither an icon nor a title where the fallback would have shown the
    output type with the default icon. *)
Theorem OutputCard_header_inherited_key :
  (output_type Sample.odd_output ∉ output_type_enum) ∧
  OutputCard_header Sample.odd_output =
    inr {| header_icon := None; header_title := None |} ∧
  OutputCard_header Sample.odd_output ≠
    inr {| header_icon := Some "📄"; header_title := Some "constructor" |} ∧
  Forall
    (λ key, ∀ output, output_type output = key →
       OutputCard_header output =
       inr {| header_icon := None; header_title := None |})
    Js.object_prototype_keys.
Proof.
  split. { apply (bool_decide_unpack _). vm_compute. exact I. }
  split; [vm_compute; reflexivity|].
  split; [vm_compute; discriminate|].
  repeat constructor; intros output Hty; unfold OutputCard_header;
    rewrite Hty; vm_compute; reflexivity.
Qed.

(** * Further properties of the lesson page *)

Section Runs.

Implicit Types (s : Page) (e : event) (evs : list event).

(** An invariant of [step] that holds initially holds after every run. *)
Lemma run_ind (P : Page → Prop) :
  (∀ e s s', step e s = Some s' → P s → P s') →
  ∀ evs s s', run evs s = Some s' → P s → P s'.
Proof.
  intros Hstep evs. induction evs as [|e evs IH]; intros s s'; simpl.
  - by intros [= <-].
  - destruct (step e s) as [s1|] eqn:He; [|done].
    intros Hrun HP. eapply IH; [done|]. by eapply Hstep.
Qed.

(** What [startPolling] changes: [pollRef], the interval table and the
    handle counter, nothing else. *)
Lemma startPolling_frame s :
  lessonId (startPolling s) = lessonId s ∧
  lesson (startPolling s) = lesson s ∧
  isLoading (startPolling s) = isLoading s ∧
  isRetrying (startPolling s) = isRetrying s ∧
  navigated (startPolling s) = navigated s ∧
  console (startPolling s) = console s ∧
  requests (startPolling s) = requests s ∧
  inflight (startPolling s) = inflight s.
Proof. unfold startPolling. by destruct (pollRef s). Qed.

Lemma cleanup_frame s :
  lessonId (cleanup s) = lessonId s ∧
  lesson (cleanup s) = lesson s ∧
  isLoading (cleanup s) = isLoading s ∧
  isRetrying (cleanup s) = isRetrying s ∧
  pollRef (cleanup s) = pollRef s ∧
  next_handle (cleanup s) = next_handle s ∧
  navigated (cleanup s) = navigated s ∧
  console (cleanup s) = console s ∧
  requests (cleanup s) = requests s ∧
  inflight (cleanup s) = inflight s.
Proof.
  unfold cleanup. destruct (pollRef s) eqn:Hp; [|done].
  repeat split; done.
Qed.

Lemma loadLesson_resume_lesson r s :
  lesson (loadLesson_resume r s) =
  match r with
  | Resolved data => Some data
  | Rejected _ => lesson s
  end.
Proof.
  unfold loadLesson_resume. destruct r as [data|err]; [|done].
  case (Js.includes _ _); [|done].
  exact (proj1 (proj2 (startPolling_frame (setLesson (Some data) s)))).
Qed.

Lemma pollTick_resume_lesson r s :
  lesson (pollTick_resume r s) =
  match r with
  | Resolved data => Some data
  | Rejected _ => lesson s
  end.
Proof.
  unfold pollTick_resume. destruct r as [data|err]; [|done].
  case (negb _); [|done]. simpl. by destruct (pollRef s).
Qed.

Lemma handleRetry_loaded_lesson r s :
  lesson (handleRetry_loaded r s) =
  match r with
  | Resolved data => Some data
  | Rejected _ => lesson s
  end.
Proof.
  unfold handleRetry_loaded.
  transitivity (lesson (loadLesson_resume r s));
    [|apply loadLesson_resume_lesson].
  exact (proj1 (proj2 (startPolling_frame (loadLesson_resume r s)))).
Qed.

Lemma handleOutputUpdate_lesson cap u s :
  is_Some (lesson s) → is_Some (lesson (handleOutputUpdate cap u s)).
Proof.
  intros Hl. unfold handleOutputUpdate. destruct cap; [by eexists|done].
Qed.

Lemma step_keeps_lesson e s s' :
  step e s = Some s' → is_Some (lesson s) → is_Some (lesson s').
Proof.
  intros Hstep Hl. destruct e as [| |h|k r|r| |cap u]; simpl in Hstep.
  - injection Hstep as <-. unfold effect. by case_bool_decide.
  - injection Hstep as <-. by rewrite (proj1 (proj2 (cleanup_frame s))).
  - case_bool_decide; [|done]. by injection Hstep as <-.
  - case_bool_decide; [|done].
    destruct k; try done; injection Hstep as <-.
    + rewrite loadLesson_resume_lesson. by destruct r.
    + rewrite pollTick_resume_lesson. by destruct r.
    + rewrite handleRetry_loaded_lesson. by destruct r.
  - case_bool_decide; [|done]. injection Hstep as <-. by destruct r.
  - destruct (retry_button_shown s); [|done]. by injection Hstep as <-.
  - injection Hstep as <-. by apply handleOutputUpdate_lesson.
Qed.

Lemma step_keeps_loaded e s s' :
  step e s = Some s' → isLoading s = false → isLoading s' = false.
Proof.
  intros Hstep Hl. destruct e as [| |h|k r|r| |cap u]; simpl in Hstep.
  - injection Hstep as <-. unfold effect. by case_bool_decide.
  - injection Hstep as <-. unfold cleanup. by destruct (pollRef s).
  - case_bool_decide; [|done]. by injection Hstep as <-.
  - case_bool_decide; [|done].
    destruct k; try done; injection Hstep as <-; try done.
    + unfold pollTick_resume. destruct r as [data|err]; [|done].
      case (negb _); [|done]. simpl. by destruct (pollRef s).
    + unfold handleRetry_loaded.
      exact (proj1 (proj2 (proj2 (startPolling_frame _)))).
  - case_bool_decide; [|done]. injection Hstep as <-. by destruct r.
  - destruct (retry_button_shown s); [|done]. by injection Hstep as <-.
  - injection Hstep as <-. unfold handleOutputUpdate. by destruct cap.
Qed.

End Runs.

(** X1. The page never goes back: along every run, once a lesson is held a
    lesson stays held (no step resets it to [null]), and once the loading
    spinner is gone it does not return. *)
Theorem page_never_goes_back (evs : list event) (s s' : Page)
    (Hrun : run evs s = Some s') :
  (is_Some (lesson s) → is_Some (lesson s')) ∧
  (isLoading s = false → isLoading s' = false).
Proof.
  split.
  - by apply (run_ind (λ t, is_Some (lesson t)) step_keeps_lesson evs).
  - by apply (run_ind (λ t, isLoading t = false) step_keeps_loaded evs).
Qed.

Lemma page_never_goes_back_witness :
  ∃ s s',
    run Sample.load_transcribing (initial_page "L1") = Some s ∧
    run Scenario.failing_tick_then_cleanup s = Some s' ∧
    lesson s' = Some Sample.transcribing ∧
    isLoading s' = false.
Proof.
  do 2 eexists. split; [by_vm|].
  match goal with
  | |- run ?evs ?s = Some ?s' ∧ _ =>
      assert (run evs s = Some s') as Hrun by by_vm;
      pose proof (page_never_goes_back evs s s' Hrun) as [Hl Hi]
  end.
  split; [exact Hrun|]. split; [by_vm|]. apply Hi. by_vm.
Defined.

Section Traces.

Implicit Types (s : Page) (e : event) (evs : list event).

Lemma loadLesson_resume_frame r s :
  lessonId (loadLesson_resume r s) = lessonId s ∧
  requests (loadLesson_resume r s) = requests s ∧
  inflight (loadLesson_resume r s) = inflight s ∧
  isRetrying (loadLesson_resume r s) = isRetrying s ∧
  match r with
  | Resolved _ =>
      navigated (loadLesson_resume r s) = navigated s ∧
      console (loadLesson_resume r s) = console s
  | Rejected _ =>
      navigated (loadLesson_resume r s) = (navigated s ++ ["/"])%list ∧
      console (loadLesson_resume r s) = (console s ++ ["Failed to load lesson"])%list
  end.
Proof.
  unfold loadLesson_resume. destruct r as [data|err]; [|done].
  case (Js.includes _ _); [|done].
  destruct (startPolling_frame (setLesson (Some data) s))
    as (? & ? & ? & ? & ? & ? & ? & ?).
  done.
Qed.

Lemma pollTick_resume_frame r s :
  lessonId (pollTick_resume r s) = lessonId s ∧
  requests (pollTick_resume r s) = requests s ∧
  inflight (pollTick_resume r s) = inflight s ∧
  isLoading (pollTick_resume r s) = isLoading s ∧
  isRetrying (pollTick_resume r s) = isRetrying s ∧
  navigated (pollTick_resume r s) = navigated s ∧
  next_handle (pollTick_resume r s) = next_handle s ∧
  console (pollTick_resume r s) =
  match r with
  | Resolved _ => console s
  | Rejected _ => (console s ++ ["Polling error"])%list
  end.
Proof.
  unfold pollTick_resume. destruct r as [data|err]; [|done].
  case (negb _); [|done]. simpl. by destruct (pollRef s).
Qed.

Lemma handleRetry_loaded_frame r s :
  lessonId (handleRetry_loaded r s) = lessonId s ∧
  requests (handleRetry_loaded r s) = requests s ∧
  inflight (handleRetry_loaded r s) = inflight s ∧
  isRetrying (handleRetry_loaded r s) = false ∧
  match r with
  | Resolved _ =>
      navigated (handleRetry_loaded r s) = navigated s ∧
      console (handleRetry_loaded r s) = console s
  | Rejected _ =>
      navigated (handleRetry_loaded r s) = (navigated s ++ ["/"])%list ∧
      console (handleRetry_loaded r s) = (console s ++ ["Failed to load lesson"])%list
  end.
Proof.
  unfold handleRetry_loaded.
  destruct (startPolling_frame (loadLesson_resume r s))
    as (Hid & _ & _ & _ & Hn & Hc & Hr & Hi).
  destruct (loadLesson_resume_frame r s) as (Hid' & Hr' & Hi' & _ & Hnc).
  split; [exact (eq_trans Hid Hid')|].
  split; [exact (eq_trans Hr Hr')|].
  split; [exact (eq_trans Hi Hi')|].
  split; [done|].
  destruct r; destruct Hnc as [Hn' Hc'];
    (split; [exact (eq_trans Hn Hn')|exact (eq_trans Hc Hc')]).
Qed.

(** What one turn of the event loop adds to the call trace, the router and
    the console. *)
Lemma step_trace e s s' :
  step e s = Some s' →
  lessonId s' = lessonId s ∧
  requests s' = (requests s ++ issued e s)%list ∧
  ((navigated s' = navigated s ∧
    (console s' = console s ∨
     ∃ msg, msg ≠ "Failed to load lesson" ∧ console s' = (console s ++ [msg])%list)) ∨
   (navigated s' = (navigated s ++ ["/"])%list ∧
    console s' = (console s ++ ["Failed to load lesson"])%list)).
Proof.
  intros Hstep. destruct e as [| |h|k r|r| |cap u]; simpl in Hstep.
  - injection Hstep as <-. unfold effect, issued.
    case_bool_decide; simpl; rewrite ?app_nil_r; auto 10.
  - injection Hstep as <-. unfold issued. rewrite app_nil_r.
    destruct (cleanup_frame s) as (-> & _ & _ & _ & _ & _ & -> & -> & -> & _).
    auto 10.
  - case_bool_decide; [|done]. injection Hstep as <-. simpl. auto 10.
  - case_bool_decide; [|done].
    destruct k; try done; injection Hstep as <-; unfold issued;
      rewrite app_nil_r.
    + destruct (loadLesson_resume_frame r (settle AwaitLoad s))
        as (-> & -> & _ & _ & Hnc).
      destruct r; destruct Hnc as [-> ->]; auto 10.
    + destruct (pollTick_resume_frame r (settle AwaitTick s))
        as (-> & -> & _ & _ & _ & -> & _ & ->).
      destruct r; [auto 10|]. do 2 (split; [done|]). left. split; [done|].
      right. by exists "Polling error".
    + destruct (handleRetry_loaded_frame r (settle AwaitRetryLoad s))
        as (-> & -> & _ & _ & Hnc).
      destruct r; destruct Hnc as [-> ->]; auto 10.
  - case_bool_decide; [|done]. injection Hstep as <-.
    destruct r as [[]|err]; simpl; rewrite ?app_nil_r; [auto 10|].
    do 2 (split; [done|]). left. split; [done|].
    right. by exists "Retry failed".
  - destruct (retry_button_shown s); [|done]. injection Hstep as <-.
    simpl. auto 10.
  - injection Hstep as <-. unfold handleOutputUpdate, issued.
    destruct cap; simpl; rewrite app_nil_r; auto 10.
Qed.

Lemma issued_process_calls e s :
  length (filter (λ c, is_process_call c) (issued e s)) =
  length (filter (λ e', is_retry_click e') [e]) ∧
  length (issued e s) ≤ 1.
Proof.
  destruct e as [| |h|k r|[[]|err]| |cap u]; simpl; try case_bool_decide;
    split; simpl; (done || lia).
Qed.

Lemma navigation_inv_step e s s' :
  step e s = Some s' → navigation_inv s → navigation_inv s'.
Proof.
  intros Hstep [Hall Hlen].
  destruct (step_trace _ _ _ Hstep) as (_ & _ & [[Hn Hc]|[Hn Hc]]).
  - split; [by rewrite Hn|]. rewrite Hn.
    destruct Hc as [->|(msg & Hmsg & ->)]; [done|].
    by rewrite filter_app, filter_cons_False, filter_nil, app_nil_r.
  - split.
    + rewrite Hn. apply Forall_app. split; [done|by repeat constructor].
    + rewrite Hn, Hc, filter_app, !length_app, Hlen.
      by rewrite filter_cons_True, filter_nil.
Qed.

End Traces.

(** X2. [lessonsApi.process] is called by the retry button and by nothing
    else: along every run, the calls made contain exactly one
    [lessonsApi.process] per click on the retry button, so that loads,
    ticks, reloads and output updates never reprocess a lesson; and no
    turn of the event loop makes more than one call. *)
Theorem process_only_on_retry_click (evs : list event) (s s' : Page)
    (Hrun : run evs s = Some s') :
  ∃ added,
    requests s' = (requests s ++ added)%list ∧
    length (filter (λ c, is_process_call c) added) =
    length (filter (λ e, is_retry_click e) evs) ∧
    length added ≤ length evs.
Proof.
  revert s Hrun. induction evs as [|e evs IH]; intros s; simpl.
  - intros [= <-]. exists []. by rewrite app_nil_r.
  - destruct (step e s) as [s1|] eqn:He; [|done]. intros Hrun.
    destruct (step_trace _ _ _ He) as (_ & Hreq & _).
    destruct (IH _ Hrun) as (added & Hadd & Hcount & Hlen).
    destruct (issued_process_calls e s) as [Hc1 Hl1].
    exists (issued e s ++ added)%list. split; [|split].
    + by rewrite Hadd, Hreq, <- app_assoc.
    + rewrite filter_app, length_app, Hcount, Hc1.
      change (e :: evs) with ([e] ++ evs)%list.
      by rewrite filter_app, length_app.
    + rewrite length_app. lia.
Qed.

Lemma process_only_on_retry_click_witness :
  ∃ s added,
    run Scenario.failing_retries (initial_page "L1") = Some s ∧
    requests s = ([] ++ added)%list ∧
    length (filter (λ c, is_process_call c) added) = 2 ∧
    length added ≤ 7.
Proof.
  eexists.
  match goal with
  | |- ∃ added, run ?evs ?s0 = Some ?s ∧ _ =>
      assert (run evs s0 = Some s) as Hrun by by_vm;
      destruct (process_only_on_retry_click evs s0 s Hrun)
        as (added & Hreq & Hcount & Hlen)
  end.
  exists added. split; [exact Hrun|]. split; [exact Hreq|].
  split; [exact Hcount|exact Hlen].
Defined.

(** X3. The only place the page ever navigates to is "/", and it does so
    exactly once per failed load (each logged as "Failed to load lesson"):
    failing ticks and failing retries never navigate away. *)
Theorem navigation_only_after_failed_load (id : string) (evs : list event)
    (s : Page)
    (Hrun : run evs (initial_page id) = Some s) :
  Forall (λ to, to = "/") (navigated s) ∧
  length (navigated s) =
  length (filter (λ msg, msg = "Failed to load lesson") (console s)).
Proof.
  apply (run_ind navigation_inv navigation_inv_step evs (initial_page id));
    [done|].
  split; [constructor|done].
Qed.

Lemma navigation_only_after_failed_load_witness :
  ∃ s,
    run Scenario.failing_retries (initial_page "L1") = Some s ∧
    console s = [ "Retry failed"; "Failed to load lesson" ] ∧
    length (navigated s) =
    length (filter (λ msg, msg = "Failed to load lesson") (console s)).
Proof.
  eexists. split; [by_vm|]. split; [by_vm|].
  match goal with
  | |- context [navigated ?s] =>
      exact (proj2 (navigation_only_after_failed_load "L1"
                      Scenario.failing_retries s ltac:(by_vm)))
  end.
Defined.

Section Handles.

Implicit Types (s : Page) (e : event).

Lemma ref_inv_startPolling s : ref_inv (startPolling s).
Proof.
  intros h. rewrite startPolling_pollRef, startPolling_next_handle.
  intros [= <-]. lia.
Qed.

Lemma ref_inv_frame s s' :
  pollRef s' = pollRef s ∨ pollRef s' = None →
  next_handle s' = next_handle s →
  ref_inv s → ref_inv s'.
Proof.
  intros [Hp|Hp] Hn HI h; rewrite Hp, Hn; [apply HI|done].
Qed.

Lemma ref_inv_loadLesson_resume r s :
  ref_inv s → ref_inv (loadLesson_resume r s).
Proof.
  intros HI. unfold loadLesson_resume. destruct r as [data|err].
  - case (Js.includes _ _).
    + apply (ref_inv_frame (startPolling (setLesson (Some data) s)));
        [by left|done|apply ref_inv_startPolling].
    + by apply (ref_inv_frame s); [left|..].
  - by apply (ref_inv_frame s); [left|..].
Qed.

Lemma ref_inv_step e s s' : step e s = Some s' → ref_inv s → ref_inv s'.
Proof.
  intros Hstep HI. destruct e as [| |h|k r|r| |cap u]; simpl in Hstep.
  - injection Hstep as <-. unfold effect. case_bool_decide; [|done].
    by apply (ref_inv_frame s); [left|..].
  - injection Hstep as <-.
    destruct (cleanup_frame s) as (_ & _ & _ & _ & Hp & Hn & _).
    by apply (ref_inv_frame s); [left|..].
  - case_bool_decide; [|done]. injection Hstep as <-.
    by apply (ref_inv_frame s); [left|..].
  - case_bool_decide; [|done].
    destruct k; try done; injection Hstep as <-.
    + apply ref_inv_loadLesson_resume. by apply (ref_inv_frame s); [left|..].
    + destruct (pollTick_resume_frame r (settle AwaitTick s))
        as (_ & _ & _ & _ & _ & _ & Hn & _).
      apply (ref_inv_frame s); [|done..].
      unfold pollTick_resume. destruct r as [data|err]; [|by left].
      case (negb _); [|by left]. simpl.
      destruct (pollRef s) eqn:Hp; [by right|by left].
    + unfold handleRetry_loaded.
      apply (ref_inv_frame (startPolling
               (loadLesson_resume r (settle AwaitRetryLoad s))));
        [by left|done|apply ref_inv_startPolling].
  - case_bool_decide; [|done]. injection Hstep as <-.
    destruct r; by apply (ref_inv_frame s); [left|..].
  - destruct (retry_button_shown s); [|done]. injection Hstep as <-.
    by apply (ref_inv_frame s); [left|..].
  - injection Hstep as <-. unfold handleOutputUpdate.
    destruct cap; [|done]. by apply (ref_inv_frame s); [left|..].
Qed.

Lemma remove_first_snoc k (l : list pending) :
  k ∉ l → remove_first k (l ++ [k]) = l.
Proof.
  induction l as [|k' l IH]; simpl; intros Hk.
  - by rewrite decide_True.
  - apply not_elem_of_cons in Hk as [Hne Hk].
    rewrite decide_False by done. by rewrite IH.
Qed.

End Handles.

(** X4. A retry whose [lessonsApi.process] call fails changes nothing but
    the log: the failure is logged as "Retry failed", [isRetrying] is
    cleared, the lesson is not requested again, the held lesson, the
    intervals and the router are untouched, and the retry button is still
    shown. *)
Theorem retry_process_failure (s : Page) (err : string)
    (Hshown : retry_button_shown s = true)
    (Hnone : AwaitProcess ∉ inflight s) :
  ∃ s',
    run [EvRetryClick; EvProcessSettled (Rejected err)] s = Some s' ∧
    requests s' = (requests s ++ [ApiProcess (lessonId s)])%list ∧
    inflight s' = inflight s ∧
    console s' = (console s ++ ["Retry failed"])%list ∧
    isRetrying s' = false ∧
    lesson s' = lesson s ∧
    intervals s' = intervals s ∧
    pollRef s' = pollRef s ∧
    navigated s' = navigated s ∧
    retry_button_shown s' = true.
Proof.
  eexists. split.
  - simpl. rewrite Hshown. simpl.
    rewrite bool_decide_eq_true_2; [done|].
    apply elem_of_app. right. constructor.
  - simpl. rewrite remove_first_snoc by done. by repeat split.
Qed.

Lemma retry_process_failure_witness :
  ∃ s s',
    run [EvEffect; EvGetSettled AwaitLoad (Resolved Sample.failed)]
      (initial_page "L1") = Some s ∧
    retry_button_shown s = true ∧
    run [EvRetryClick; EvProcessSettled (Rejected "Server Error")] s = Some s' ∧
    lesson s' = Some Sample.failed ∧
    requests s' = [ApiGet "L1"; ApiProcess "L1"].
Proof.
  eexists.
  match goal with
  | |- ∃ s', run _ _ = Some ?s ∧ _ =>
      assert (run [EvEffect; EvGetSettled AwaitLoad (Resolved Sample.failed)]
                (initial_page "L1") = Some s) as Hrun by by_vm;
      destruct (retry_process_failure s "Server Error")
        as (s' & Hrun' & Hreq & _ & _ & _ & Hl & _);
        [by_vm|apply (bool_decide_unpack _); vm_compute; exact I|]
  end.
  exists s'. split; [exact Hrun|]. split; [by_vm|]. split; [exact Hrun'|].
  split; [exact Hl|exact Hreq].
Defined.

(** X5. When the reload inside a retry fails, [loadLesson] logs the error
    and navigates to "/", and [handleRetry] still calls [startPolling]: the
    held lesson is unchanged, [isRetrying] is cleared, and one fresh
    interval is left active, which the cleanup of the effect cancels. *)
Theorem retry_reload_failure_still_polls (id : string) (evs : list event)
    (s : Page) (err : string)
    (Hrun : run evs (initial_page id) = Some s)
    (Hin : AwaitRetryLoad ∈ inflight s) :
  ∃ s',
    step (EvGetSettled AwaitRetryLoad (Rejected err)) s = Some s' ∧
    navigated s' = (navigated s ++ ["/"])%list ∧
    lesson s' = lesson s ∧
    isRetrying s' = false ∧
    pollRef s' = Some (next_handle s) ∧
    intervals s' = {[ next_handle s := POLL_DELAY ]} ∧
    intervals (cleanup s') = ∅.
Proof.
  pose proof (page_inv_run _ _ _ Hrun (page_inv_initial _)) as HI.
  set (t := settle AwaitRetryLoad s).
  assert (page_inv t) as HIt by (by apply (page_inv_frame s)).
  exists (handleRetry_loaded (Rejected err) t).
  split; [by apply step_retry_load_settled|].
  destruct (handleRetry_loaded_frame (Rejected err) t)
    as (_ & _ & _ & Hr & Hn & _).
  pose proof (page_inv_loadLesson_resume (Rejected err) t HIt) as (HP & _ & _).
  split; [done|]. split; [by rewrite handleRetry_loaded_lesson|].
  split; [done|].
  assert (pollRef (handleRetry_loaded (Rejected err) t) = Some (next_handle s))
    as Hp by exact (startPolling_pollRef (loadLesson_resume (Rejected err) t)).
  assert (intervals (handleRetry_loaded (Rejected err) t)
          = {[ next_handle s := POLL_DELAY ]}) as Hi
    by exact (startPolling_intervals (loadLesson_resume (Rejected err) t) HP).
  split; [done|]. split; [done|].
  unfold cleanup. rewrite Hp.
  change (delete (next_handle s) (intervals (handleRetry_loaded (Rejected err) t))
          = ∅).
  rewrite Hi. apply delete_singleton_eq.
Qed.

Lemma retry_reload_failure_still_polls_witness :
  ∃ s s',
    run (take 6 Scenario.failing_retries) (initial_page "L1") = Some s ∧
    AwaitRetryLoad ∈ inflight s ∧
    step (EvGetSettled AwaitRetryLoad (Rejected "Network Error")) s = Some s' ∧
    navigated s' = ["/"] ∧
    intervals s' = {[ 1%positive := POLL_DELAY ]}.
Proof.
  eexists.
  match goal with
  | |- ∃ s', run ?evs _ = Some ?s ∧ _ =>
      assert (run evs (initial_page "L1") = Some s) as Hrun by by_vm;
      assert (AwaitRetryLoad ∈ inflight s) as Hin
        by (apply (bool_decide_unpack _); vm_compute; exact I);
      destruct (retry_reload_failure_still_polls "L1" evs s "Network Error"
                  Hrun Hin) as (s' & Hstep & Hn & _ & _ & _ & Hi & _)
  end.
  exists s'. split; [exact Hrun|]. split; [exact Hin|].
  split; [exact Hstep|]. split; [exact Hn|exact Hi].
Defined.

(** X6. The cleanup of the effect cancels the interval but leaves its handle
    in [pollRef]. That stale handle is harmless: running the cleanup again
    changes nothing, the handle was handed out before and so is never the
    one a later [setInterval] returns, and [startPolling] after a cleanup
    leaves exactly the fresh interval active. *)
Theorem cleanup_then_restart (id : string) (evs : list event) (s : Page)
    (Hrun : run evs (initial_page id) = Some s) :
  cleanup (cleanup s) = cleanup s ∧
  pollRef (cleanup s) = pollRef s ∧
  intervals (cleanup s) = ∅ ∧
  pollRef s ≠ Some (next_handle s) ∧
  pollRef (startPolling (cleanup s)) = Some (next_handle s) ∧
  intervals (startPolling (cleanup s)) = {[ next_handle s := POLL_DELAY ]}.
Proof.
  pose proof (page_inv_run _ _ _ Hrun (page_inv_initial _)) as HI.
  assert (ref_inv s) as HR.
  { apply (run_ind ref_inv ref_inv_step evs (initial_page id)); [done|].
    by intros h. }
  destruct (cleanup_frame s) as (_ & _ & _ & _ & Hp & Hn & _).
  split.
  { unfold cleanup at 1. rewrite Hp. unfold cleanup.
    destruct (pollRef s) as [h|] eqn:Hh; [|done].
    unfold clearInterval. simpl. by rewrite delete_delete_eq. }
  split; [done|]. split; [by apply cleanup_intervals, HI|].
  split. { intros Hh. apply HR in Hh. lia. }
  rewrite startPolling_pollRef, Hn. split; [done|].
  rewrite startPolling_intervals, Hn; [done|].
  by apply (page_inv_cleanup s).
Qed.

Lemma cleanup_then_restart_witness :
  ∃ s,
    run Sample.load_transcribing (initial_page "L1") = Some s ∧
    pollRef (cleanup s) = Some 1%positive ∧
    intervals (startPolling (cleanup s)) = {[ 2%positive := POLL_DELAY ]}.
Proof.
  eexists. split; [by_vm|].
  match goal with
  | |- pollRef (cleanup ?s) = _ ∧ _ =>
      pose proof (cleanup_then_restart "L1" Sample.load_transcribing s
                    ltac:(by_vm)) as (_ & Hp & _ & _ & _ & Hi)
  end.
  split; [exact Hp|exact Hi].
Defined.

(** X7. The interval callback never registers an interval: whatever its
    request returns, the intervals active afterwards were active before and
    the handle counter is unchanged. So once polling has stopped, a tick
    cannot restart it. In particular, when two ticks overlap and the
    response with the completed lesson arrives before the response of the
    earlier request, the page ends up holding a lesson in the processing set
    with no interval active and no request in flight. *)
Theorem tick_never_restarts_polling :
  (∀ r s,
     intervals (pollTick_resume r s) ⊆ intervals s ∧
     next_handle (pollTick_resume r s) = next_handle s) ∧
  ∃ s,
    run Scenario.late_tick_response (initial_page "L1") = Some s ∧
    lesson s = Some Sample.transcribing ∧
    Js.includes PROCESSING_STATUSES (status Sample.transcribing) = true ∧
    intervals s = ∅ ∧
    inflight s = [] ∧
    ∀ h, step (EvTimer h) s = None.
Proof.
  split.
  - intros r s.
    split; [|exact (proj1 (proj2 (proj2 (proj2 (proj2 (proj2
                      (proj2 (pollTick_resume_frame r s))))))))].
    unfold pollTick_resume. destruct r as [data|err]; [|done].
    case (negb _); [|done]. simpl.
    destruct (pollRef s); [apply delete_subseteq|done].
  - eexists. split; [by_vm|]. do 2 (split; [by_vm|]).
    match goal with
    | |- intervals ?s = ∅ ∧ _ => assert (intervals s = ∅) as Hi by by_vm
    end.
    split; [exact Hi|]. split; [by_vm|].
    intros h. apply step_timer_inactive. rewrite Hi, dom_empty_L.
    apply not_elem_of_empty.
Qed.

(** * What the lesson page renders *)

Lemma render_cards_never_throws (l : list Output) :
  ∃ hds, render_cards l = inr hds ∧ length hds = length l.
Proof.
  induction l as [|o l (hds & IH & Hlen)]; simpl; [by eexists|].
  destruct (OutputCard_header_never_throws o) as [hd ->].
  rewrite IH. eexists. split; [done|]. simpl. by rewrite Hlen.
Qed.

Lemma is_Some_if {A} (c : bool) (x : A) :
  is_Some (if c then Some x else None) ↔ c = true.
Proof.
  destruct c; split; intros H; first [done | by eexists | by destruct H].
Qed.

Lemma outputs_section_spec (l : LessonDetail) :
  ∃ cs,
    outputs_section l = inr cs ∧
    (is_Some cs ↔ isCompleted l = true ∧ outputs l ≠ []) ∧
    (∀ hds, cs = Some hds → length hds = length (outputs l)).
Proof.
  unfold outputs_section.
  destruct (render_cards_never_throws (outputs l)) as (hds & -> & Hlen).
  destruct (isCompleted l); simpl.
  - case_bool_decide as Hpos; eexists; (split; [reflexivity|]).
    + split; [|by intros hds' [= <-]]. split; [|by eexists].
      intros _. split; [done|]. intros Hnil. rewrite Hnil in Hpos.
      simpl in Hpos. lia.
    + split; [|done]. split; [by intros [? ?]|].
      intros [_ Hne]. destruct (outputs l); [done|]. simpl in Hpos. lia.
  - eexists. split; [reflexivity|]. split; [|done].
    split; [by intros [? ?]|by intros [? _]].
Qed.

Lemma transcript_section_spec (l : LessonDetail) :
  is_Some (transcript_section l) ↔
  isCompleted l = true ∧ ∃ t, transcript l = Some t ∧ t ≠ "".
Proof.
  unfold transcript_section. destruct (isCompleted l).
  - destruct (transcript l) as [t|].
    + case_bool_decide as Hempty; split.
      * by intros [? ?].
      * by intros [_ (t' & [= <-] & Hne)].
      * intros _. split; [done|]. by exists t.
      * by eexists.
    + split; [by intros [? ?]|]. by intros [_ (t' & ? & _)].
  - split; [by intros [? ?]|by intros [? _]].
Qed.

(** X8. The render of the lesson page never throws in the badge or in the
    headers of its output cards, whatever the state. Once the spinner is
    gone and a lesson is held it renders a body in which at most one of the
    three status sections appears: the processing card exactly for the
    statuses of [PROCESSING_STATUSES] (and then with a message), the failed
    card with the retry button exactly for FAILED, and output cards or the
    transcript only for COMPLETED; one card is shown per output, and an
    empty output list or an empty transcript shows no section. *)
Theorem LessonPage_render_sections (s : Page) :
  (∃ v, LessonPage_render s = inr v) ∧
  ∀ l, isLoading s = false → lesson s = Some l →
    ∃ b,
      LessonPage_render s = inr (Body b) ∧
      (is_Some (processing_card b) ↔ status l ∈ PROCESSING_STATUSES) ∧
      (∀ msg, processing_card b = Some msg → msg ≠ "") ∧
      (is_Some (failed_card b) ↔ status l = "FAILED") ∧
      (is_Some (failed_card b) ↔ retry_button_shown s = true) ∧
      (is_Some (output_cards b) ↔ status l = "COMPLETED" ∧ outputs l ≠ []) ∧
      (∀ hds, output_cards b = Some hds → length hds = length (outputs l)) ∧
      (is_Some (transcript_card b) ↔
         status l = "COMPLETED" ∧ ∃ t, transcript l = Some t ∧ t ≠ "") ∧
      (is_Some (processing_card b) →
         failed_card b = None ∧ output_cards b = None ∧ transcript_card b = None) ∧
      (is_Some (failed_card b) →
         output_cards b = None ∧ transcript_card b = None).
Proof.
  split.
  { unfold LessonPage_render. destruct (isLoading s); [by eexists|].
    destruct (lesson s) as [l|]; [|by eexists].
    destruct (StatusBadge_never_throws (status l)) as [sp ->].
    destruct (outputs_section_spec l) as (cs & -> & _). by eexists. }
  intros l Hload Hl.
  assert (isProcessing l = true ↔ status l ∈ PROCESSING_STATUSES) as HP
    by apply bool_decide_eq_true.
  assert (isFailed l = true ↔ status l = "FAILED") as HF
    by apply bool_decide_eq_true.
  assert (isCompleted l = true ↔ status l = "COMPLETED") as HC
    by apply bool_decide_eq_true.
  assert (isProcessing l = true → isFailed l = false ∧ isCompleted l = false)
    as Hexcl1.
  { intros Hin%HP. unfold isFailed, isCompleted, PROCESSING_STATUSES in *.
    rewrite !elem_of_cons, elem_of_nil in Hin.
    destruct Hin as [->|[->|[->|[->|[]]]]]; by split. }
  assert (isFailed l = true → isCompleted l = false) as Hexcl2.
  { intros Hin%HF. unfold isCompleted. by rewrite Hin. }
  assert (∀ cs : option (list CardHeader),
            (is_Some cs ↔ isCompleted l = true ∧ outputs l ≠ []) →
            isCompleted l = false → cs = None) as Hnocards.
  { intros [hds|] Hcs Hnc; [|done].
    destruct (proj1 Hcs) as [Hc _]; [by eexists|congruence]. }
  assert (isCompleted l = false → transcript_section l = None) as Hnotr.
  { intros Hnc. unfold transcript_section. by rewrite Hnc. }
  unfold LessonPage_render. rewrite Hload, Hl.
  destruct (StatusBadge_never_throws (status l)) as [sp ->].
  destruct (outputs_section_spec l) as (cs & -> & Hcs & Hlen).
  eexists. split; [reflexivity|].
  cbn [processing_card failed_card output_cards transcript_card].
  rewrite !is_Some_if.
  split; [done|].
  split.
  { intros msg. destruct (isProcessing l) eqn:Hproc; [|done].
    intros [= <-]. apply bool_decide_eq_true in Hproc.
    unfold PROCESSING_STATUSES in Hproc.
    rewrite !elem_of_cons, elem_of_nil in Hproc.
    destruct Hproc as [->|[->|[->|[->|[]]]]]; by vm_compute. }
  split; [done|].
  split. { unfold retry_button_shown. by rewrite Hload, Hl. }
  split; [by rewrite Hcs, HC|].
  split; [done|].
  split; [by rewrite transcript_section_spec, HC|].
  split.
  - intros [Hnf Hnc]%Hexcl1. rewrite Hnf.
    by rewrite (Hnocards cs Hcs Hnc), (Hnotr Hnc).
  - intros Hnc%Hexcl2. by rewrite (Hnocards cs Hcs Hnc), (Hnotr Hnc).
Qed.

(** * The output card *)

Section Card.

Implicit Types (c : CardState) (e : card_event).

Lemma card_remove_first_snoc k (l : list card_pending) :
  k ∉ l → card_remove_first k (l ++ [k]) = l.
Proof.
  induction l as [|k' l IH]; simpl; intros Hk.
  - by rewrite decide_True.
  - apply not_elem_of_cons in Hk as [Hne Hk].
    rewrite decide_False by done. by rewrite IH.
Qed.

Lemma card_run_cons e evs c c1 :
  card_step e c = Some c1 → card_run (e :: evs) c = card_run evs c1.
Proof. intros Hstep. simpl. by rewrite Hstep. Qed.

(** Typing only changes the draft. *)
Lemma card_run_changes (drafts : list string) (rest : list card_event) c :
  editor_shown c = true →
  ∃ v, card_run ((CardChange <$> drafts) ++ rest) c
       = card_run rest (setEditContent v c).
Proof.
  revert c. induction drafts as [|d drafts IH]; intros c Hshown.
  - exists (editContent c). simpl. by destruct c.
  - change (card_run ((CardChange <$> d :: drafts) ++ rest) c)
      with (card_run (CardChange d :: ((CardChange <$> drafts) ++ rest)) c).
    rewrite (card_run_cons _ _ _ (setEditContent d c))
      by (simpl; by rewrite Hshown).
    destruct (IH (setEditContent d c) Hshown) as [v ->]. by exists v.
Qed.

(** Replacing by id in a list whose ids are pairwise distinct. *)
Lemma replace_by_id_insert (outs : list Output) (i : nat) (o updated : Output) :
  NoDup (output_id <$> outs) → outs !! i = Some o →
  output_id updated = output_id o →
  (λ o', if bool_decide (output_id o' = output_id updated) then updated else o')
    <$> outs = <[i := updated]> outs.
Proof.
  intros Hnd Ho Hid. apply list_eq. intros j. rewrite list_lookup_fmap.
  destruct (decide (i = j)) as [<-|Hne].
  - rewrite list_lookup_insert_eq by (by eapply lookup_lt_Some).
    rewrite Ho. simpl. by rewrite bool_decide_eq_true_2.
  - rewrite list_lookup_insert_ne by done.
    destruct (outs !! j) as [o'|] eqn:Ho'; [|done]. simpl.
    rewrite bool_decide_eq_false_2; [done|].
    intros Hid'. apply Hne.
    apply (NoDup_lookup _ i j (output_id updated) Hnd);
      rewrite list_lookup_fmap; [rewrite Ho|rewrite Ho']; simpl; congruence.
Qed.

Lemma insert_same_id (outs : list Output) (i : nat) (o updated : Output) :
  outs !! i = Some o → output_id updated = output_id o →
  output_id <$> <[i := updated]> outs = output_id <$> outs.
Proof.
  intros Ho Hid. rewrite list_fmap_insert, Hid.
  apply list_insert_id. by rewrite list_lookup_fmap, Ho.
Qed.

End Card.

(** X9. Cancel discards the draft: from a card showing its view buttons,
    Edit, any amount of typing and then Cancel leave the card as it was,
    with the draft reset to the content of the output. And Edit always
    opens the editor on the content of the current [output] prop, never on
    an older draft. *)
Theorem edit_cancel_discards_draft (c : CardState) (drafts : list string)
    (Hshown : view_buttons_shown c = true) :
  card_run (CardEditClick :: (CardChange <$> drafts) ++ [CardCancelClick]) c
    = Some (setEditContent (content (card_output c)) c) ∧
  editContent (edit_click c) = content (card_output c) ∧
  isEditing (edit_click c) = true.
Proof.
  split; [|done].
  unfold view_buttons_shown in Hshown.
  apply andb_true_iff in Hshown as [Hexp Hed%negb_true_iff].
  rewrite (card_run_cons _ _ _ (edit_click c)).
  - destruct (card_run_changes drafts [CardCancelClick] (edit_click c))
      as [v ->]; [by unfold editor_shown; simpl; rewrite Hexp|].
    simpl. unfold editor_shown. simpl. rewrite Hexp. simpl.
    unfold cancel_click. simpl. f_equal. destruct c. simpl in *. by subst.
  - simpl. unfold view_buttons_shown. by rewrite Hexp, Hed.
Qed.

Lemma edit_cancel_discards_draft_witness :
  view_buttons_shown CardScenario.plan_card = true ∧
  card_run [ CardEditClick; CardChange "Fifteen"; CardChange "Fifteen minutes";
             CardCancelClick ] CardScenario.plan_card
    = Some (setEditContent "Ten minutes of arpeggios a day." CardScenario.plan_card).
Proof.
  split; [by_vm|].
  exact (proj1 (edit_cancel_discards_draft CardScenario.plan_card
                  ["Fifteen"; "Fifteen minutes"] eq_refl)).
Defined.

(** X10. Saving sends the id of the output and the current draft to
    [outputsApi.update]. If the call fails, the failure is logged, the
    editor stays open on the unchanged draft and [onUpdate] is not called;
    if it succeeds, [onUpdate] receives the output the server returned
    (once, when the prop was passed) and the editor closes. Either way
    [isSaving] is cleared. *)
Theorem handleSave_outcomes (c : CardState) (r : response Output)
    (Hshown : editor_shown c = true)
    (Hnone : AwaitUpdate ∉ card_inflight c) :
  ∃ c',
    card_run [CardSaveClick; CardRequestSettled AwaitUpdate r] c = Some c' ∧
    card_requests c' =
      (card_requests c ++
       [OutputsUpdate (output_id (card_output c)) (editContent c)])%list ∧
    card_inflight c' = card_inflight c ∧
    isSaving c' = false ∧
    editContent c' = editContent c ∧
    match r with
    | Resolved data =>
        isEditing c' = false ∧
        card_updates c' =
          (if card_onUpdate c then card_updates c ++ [data] else card_updates c)%list ∧
        card_console c' = card_console c
    | Rejected _ =>
        isEditing c' = true ∧
        card_updates c' = card_updates c ∧
        card_console c' = (card_console c ++ ["Failed to save"])%list
    end.
Proof.
  pose proof Hshown as Hed. unfold editor_shown in Hed.
  apply andb_true_iff in Hed as [_ Hed].
  eexists. split.
  - simpl. rewrite Hshown. simpl.
    rewrite bool_decide_eq_true_2; [done|].
    apply elem_of_app. right. constructor.
  - destruct r as [data|err];
      unfold handleSave_resume, call_onUpdate, handleSave_begin; simpl;
      [destruct (card_onUpdate c)|]; simpl;
      rewrite card_remove_first_snoc by done; by repeat split.
Qed.

Lemma handleSave_outcomes_witness :
  editor_shown CardScenario.plan_card_editing = true ∧
  (AwaitUpdate ∉ card_inflight CardScenario.plan_card_editing) ∧
  ∃ c',
    card_run [CardSaveClick; CardRequestSettled AwaitUpdate (Rejected "Server Error")]
      CardScenario.plan_card_editing = Some c' ∧
    isEditing c' = true ∧
    editContent c' = "Fifteen minutes of arpeggios a day.".
Proof.
  split; [by_vm|]. split; [apply not_elem_of_nil|].
  destruct (handleSave_outcomes CardScenario.plan_card_editing
              (Rejected "Server Error") eq_refl (not_elem_of_nil _))
    as (c' & Hrun & _ & _ & _ & Hdraft & Hed & _).
  exists c'. split; [exact Hrun|]. split; [exact Hed|exact Hdraft].
Defined.

(** X11. Reverting asks [outputsApi.revert] for the output of the card. If
    the call succeeds, [onUpdate] receives the reverted output and the draft
    becomes its content; if it fails, the failure is logged and nothing
    else changes. The card never edits its own [output] prop. *)
Theorem handleRevert_outcomes (c : CardState) (r : response Output)
    (Hshown : revert_button_shown c = true)
    (Hnone : AwaitRevert ∉ card_inflight c) :
  ∃ c',
    card_run [CardRevertClick; CardRequestSettled AwaitRevert r] c = Some c' ∧
    card_requests c' =
      (card_requests c ++ [OutputsRevert (output_id (card_output c))])%list ∧
    card_inflight c' = card_inflight c ∧
    card_output c' = card_output c ∧
    isEditing c' = false ∧
    match r with
    | Resolved data =>
        editContent c' = content data ∧
        card_updates c' =
          (if card_onUpdate c then card_updates c ++ [data] else card_updates c)%list ∧
        card_console c' = card_console c
    | Rejected _ =>
        editContent c' = editContent c ∧
        card_updates c' = card_updates c ∧
        card_console c' = (card_console c ++ ["Failed to revert"])%list
    end.
Proof.
  pose proof Hshown as Hv. unfold revert_button_shown, view_buttons_shown in Hv.
  apply andb_true_iff in Hv as [[_ Hed%negb_true_iff]%andb_true_iff _].
  eexists. split.
  - simpl. rewrite Hshown. simpl.
    rewrite bool_decide_eq_true_2; [done|].
    apply elem_of_app. right. constructor.
  - destruct r as [data|err];
      unfold handleRevert_resume, call_onUpdate, handleRevert_begin; simpl;
      [destruct (card_onUpdate c)|]; simpl;
      rewrite card_remove_first_snoc by done; by repeat split.
Qed.

Lemma handleRevert_outcomes_witness :
  ∃ c c',
    c = initial_card Sample.plan_edited true ∧
    revert_button_shown c = true ∧
    (AwaitRevert ∉ card_inflight c) ∧
    card_run [CardRevertClick; CardRequestSettled AwaitRevert (Resolved Sample.plan)] c
      = Some c' ∧
    editContent c' = "Ten minutes of arpeggios a day." ∧
    card_updates c' = [Sample.plan].
Proof.
  eexists.
  destruct (handleRevert_outcomes (initial_card Sample.plan_edited true)
              (Resolved Sample.plan) eq_refl (not_elem_of_nil _))
    as (c' & Hrun & _ & _ & _ & _ & Hdraft & Hupd & _).
  exists c'. split; [reflexivity|]. split; [by_vm|].
  split; [apply not_elem_of_nil|]. split; [exact Hrun|].
  split; [exact Hdraft|exact Hupd].
Defined.

(** X12. Copying writes the content of the output to the clipboard. Only
    when that write has resolved is the card marked as copied, a timeout
    armed to clear the mark, and [outputsApi.share] called for the output; a
    failure of that call is logged and changes nothing else. When the write
    itself is rejected the card is left as it was and the output is not
    reported as shared. In no case is [onUpdate] called, so the page is not
    told that the output is now shared. *)
Theorem handleCopy_outcomes (c : CardState) (rc : response unit)
    (rs : response Output)
    (Hshown : view_buttons_shown c = true)
    (Hnone : card_inflight c = []) :
  let id := output_id (card_output c) in
  let text := content (card_output c) in
  ∃ c1,
    card_run [CardCopyClick; CardClipboardSettled id text rc] c = Some c1 ∧
    card_updates c1 = card_updates c ∧
    card_output c1 = card_output c ∧
    match rc with
    | Rejected _ =>
        clipboard c1 = clipboard c ∧
        isCopied c1 = isCopied c ∧
        card_requests c1 = card_requests c ∧
        card_timeouts c1 = card_timeouts c ∧
        card_inflight c1 = []
    | Resolved _ =>
        clipboard c1 = (clipboard c ++ [text])%list ∧
        isCopied c1 = true ∧
        card_requests c1 = (card_requests c ++ [OutputsShare id])%list ∧
        card_timeouts c1 = S (card_timeouts c) ∧
        ∃ c2,
          card_step (CardRequestSettled AwaitShare rs) c1 = Some c2 ∧
          isCopied c2 = true ∧
          card_updates c2 = card_updates c ∧
          card_inflight c2 = [] ∧
          card_console c2 =
            match rs with
            | Resolved _ => card_console c
            | Rejected _ => (card_console c ++ ["Failed to mark as shared"])%list
            end ∧
          ∃ c3, card_step CardTimeout c2 = Some c3 ∧ isCopied c3 = false
    end.
Proof.
  intros id text. subst id text.
  assert (∀ k, k ∉ card_inflight c) as Hk
    by (intros k; rewrite Hnone; apply not_elem_of_nil).
  eexists. split.
  - simpl. rewrite Hshown. simpl.
    rewrite bool_decide_eq_true_2; [done|].
    apply elem_of_app. right. constructor.
  - destruct rc as [[]|err]; simpl;
      rewrite (card_remove_first_snoc (AwaitClipboard _ _)) by (apply Hk);
      [|by rewrite Hnone].
    do 6 (split; [done|]). eexists. split.
    + rewrite bool_decide_eq_true_2; [done|].
      apply elem_of_app. right. constructor.
    + destruct rs as [data|err]; simpl;
        rewrite (card_remove_first_snoc (AwaitClipboard _ _)) by (apply Hk);
        rewrite (card_remove_first_snoc AwaitShare) by (apply Hk);
        (do 4 (split; [done|])); by eexists.
Qed.

Lemma handleCopy_outcomes_witness :
  view_buttons_shown CardScenario.plan_card = true ∧
  card_inflight CardScenario.plan_card = [] ∧
  ∃ c1,
    card_run [ CardCopyClick;
               CardClipboardSettled "O2" "Ten minutes of arpeggios a day."
                 (Resolved ()) ] CardScenario.plan_card = Some c1 ∧
    card_updates c1 = [].
Proof.
  split; [by_vm|]. split; [by_vm|].
  destruct (handleCopy_outcomes CardScenario.plan_card (Resolved ())
              (Rejected "Server Error") eq_refl eq_refl)
    as (c1 & Hrun & Hupd & _).
  exists c1. split; [exact Hrun|exact Hupd].
Defined.

(** * The page and its cards *)

(** X13. A save reaches the page. When the card of the output at position
    [i] of the held lesson saves and the server returns an output with the
    same id, the card passes that output to [onUpdate], and
    [handleOutputUpdate] (created by the render that holds this lesson)
    stores it at position [i]: the page shows what the server returned. The
    ids of the outputs, and so the cards, stay the same. *)
Theorem save_reaches_page (s : Page) (l : LessonDetail) (c : CardState)
    (i : nat) (data : Output)
    (Hl : lesson s = Some l)
    (Hnd : NoDup (output_id <$> outputs l))
    (Ho : outputs l !! i = Some (card_output c))
    (Hon : card_onUpdate c = true)
    (Hid : output_id data = output_id (card_output c)) :
  card_updates (handleSave_resume (Resolved data) c) =
    (card_updates c ++ [data])%list ∧
  ∃ l',
    lesson (handleOutputUpdate (lesson s) data s) = Some l' ∧
    handleOutputUpdate (lesson s) data s = setLesson (Some l') s ∧
    outputs l' = <[i := data]> (outputs l) ∧
    outputs l' !! i = Some data ∧
    (∀ j, j ≠ i → outputs l' !! j = outputs l !! j) ∧
    output_id <$> outputs l' = output_id <$> outputs l ∧
    status l' = status l.
Proof.
  split.
  { unfold handleSave_resume, call_onUpdate. simpl. by rewrite Hon. }
  rewrite Hl. unfold handleOutputUpdate.
  eexists. split; [reflexivity|]. split; [done|].
  cbn [outputs with_outputs lesson setLesson status].
  rewrite (replace_by_id_insert _ i (card_output c) data Hnd Ho Hid).
  split; [done|]. split.
  { apply list_lookup_insert_eq. by eapply lookup_lt_Some. }
  split. { intros j Hj. by apply list_lookup_insert_ne. }
  split; [by eapply insert_same_id|done].
Qed.

Lemma save_reaches_page_witness :
  lesson CardScenario.completed_page = Some Sample.completed ∧
  NoDup (output_id <$> outputs Sample.completed) ∧
  outputs Sample.completed !! 1 = Some (card_output CardScenario.plan_card_editing) ∧
  ∃ l',
    lesson (handleOutputUpdate (lesson CardScenario.completed_page)
              Sample.plan_edited CardScenario.completed_page) = Some l' ∧
    outputs l' !! 1 = Some Sample.plan_edited.
Proof.
  assert (NoDup (output_id <$> outputs Sample.completed)) as Hnd.
  { apply (bool_decide_unpack _). vm_compute. exact I. }
  split; [reflexivity|]. split; [exact Hnd|]. split; [reflexivity|].
  destruct (save_reaches_page CardScenario.completed_page Sample.completed
              CardScenario.plan_card_editing 1 Sample.plan_edited
              eq_refl Hnd eq_refl eq_refl eq_refl)
    as (_ & l' & Hl' & _ & _ & Hi & _).
  exists l'. split; [exact Hl'|exact Hi].
Defined.

(** X14. Overlapping saves lose an update. [handleOutputUpdate] writes back
    the lesson of the render that created it, not the lesson held when it
    runs. So when the cards at two positions [i] and [j] both start a save
    under the same render, the update that arrives second restores the
    output at [i] to what it was before the first update: only the second
    update survives. Had the second save started after the first update
    was rendered, both would be on the page. *)
Theorem overlapping_saves_lose_update (s : Page) (l : LessonDetail)
    (i j : nat) (oi oj di dj : Output)
    (Hnd : NoDup (output_id <$> outputs l))
    (Hi : outputs l !! i = Some oi)
    (Hj : outputs l !! j = Some oj)
    (Hne : i ≠ j)
    (Hdi : output_id di = output_id oi)
    (Hdj : output_id dj = output_id oj) :
  let first := handleOutputUpdate (Some l) di s in
  ∃ l1 l2 l2',
    lesson first = Some l1 ∧
    outputs l1 = <[i := di]> (outputs l) ∧
    lesson (handleOutputUpdate (Some l) dj first) = Some l2 ∧
    outputs l2 = <[j := dj]> (outputs l) ∧
    outputs l2 !! i = Some oi ∧
    lesson (handleOutputUpdate (lesson first) dj first) = Some l2' ∧
    outputs l2' = <[j := dj]> (<[i := di]> (outputs l)) ∧
    outputs l2' !! i = Some di.
Proof.
  intros first. unfold first, handleOutputUpdate.
  cbn [lesson setLesson].
  do 3 eexists. split; [reflexivity|].
  cbn [outputs with_outputs].
  rewrite (replace_by_id_insert _ i oi di Hnd Hi Hdi).
  rewrite (replace_by_id_insert _ j oj dj Hnd Hj Hdj).
  split; [done|]. split; [reflexivity|].
  cbn [outputs with_outputs].
  split; [done|].
  split; [by rewrite list_lookup_insert_ne|].
  split; [reflexivity|].
  cbn [outputs with_outputs].
  rewrite (replace_by_id_insert (<[i := di]> (outputs l)) j oj dj).
  - split; [done|]. rewrite list_lookup_insert_ne by done.
    apply list_lookup_insert_eq. by eapply lookup_lt_Some.
  - by rewrite (insert_same_id _ i oi di Hi Hdi).
  - by rewrite list_lookup_insert_ne.
  - done.
Qed.

Lemma overlapping_saves_lose_update_witness :
  NoDup (output_id <$> outputs Sample.completed) ∧
  ∃ l2,
    lesson (handleOutputUpdate (Some Sample.completed) Sample.plan_edited
              (handleOutputUpdate (Some Sample.completed)
                 CardScenario.recap_edited CardScenario.completed_page))
      = Some l2 ∧
    outputs l2 !! 0 = Some Sample.recap.
Proof.
  assert (NoDup (output_id <$> outputs Sample.completed)) as Hnd.
  { apply (bool_decide_unpack _). vm_compute. exact I. }
  split; [exact Hnd|].
  destruct (overlapping_saves_lose_update CardScenario.completed_page
              Sample.completed 0 1 Sample.recap Sample.plan
              CardScenario.recap_edited Sample.plan_edited
              Hnd eq_refl eq_refl ltac:(lia) eq_refl eq_refl)
    as (l1 & l2 & l2' & _ & _ & Hl2 & _ & Hlost & _).
  exists l2. split; [exact Hl2|exact Hlost].
Defined.

(** * The home page *)

(** X15. Loading the home page is all or nothing. When both lists arrive,
    the students are the list returned and the recent lessons are its
    lessons' first five, in order (all of them when there are at most
    five). When either request fails, even if the other one succeeded,
    neither list is touched and the failure is logged; the page does not
    navigate away. In every case the spinner is removed. *)
Theorem HomePage_loadData_all_or_nothing (rs : response (list Student.t))
    (rl : response (list Lesson.t)) (h : Home) :
  home_isLoading (HomePage_loadData rs rl h) = false ∧
  showAddStudent (HomePage_loadData rs rl h) = showAddStudent h ∧
  match rs, rl with
  | Resolved ss, Resolved ls =>
      students (HomePage_loadData rs rl h) = ss ∧
      recentLessons (HomePage_loadData rs rl h) `prefix_of` ls ∧
      length (recentLessons (HomePage_loadData rs rl h)) = min 5 (length ls) ∧
      (length ls ≤ 5 → recentLessons (HomePage_loadData rs rl h) = ls) ∧
      home_console (HomePage_loadData rs rl h) = home_console h
  | _, _ =>
      students (HomePage_loadData rs rl h) = students h ∧
      recentLessons (HomePage_loadData rs rl h) = recentLessons h ∧
      home_console (HomePage_loadData rs rl h) =
        (home_console h ++ ["Failed to load data"])%list
  end.
Proof.
  destruct rs as [ss|es], rl as [ls|el]; unfold HomePage_loadData, Promise_all;
    cbn [students recentLessons home_isLoading showAddStudent home_console];
    try done.
  do 3 (split; [done|]). split; [apply prefix_take|].
  split; [apply length_take|]. split; [|done].
  intros Hlen. by apply take_ge.
Qed.

Lemma render_child_array_object (items : list any) :
  AObject ∈ items → render_child (AArray items) = None.
Proof.
  simpl. induction items as [|x items IH]; intros Hin.
  - by apply elem_of_nil in Hin.
  - apply elem_of_cons in Hin as [<-|Hin]; [done|].
    rewrite (IH Hin). by destruct (render_child x).
Qed.

(** X16. Adding a student. The form sends the name, instrument and level as
    typed and leaves out a parent name or e-mail that is empty. When the
    call succeeds, the returned student is appended after the students
    already listed, the modal is closed and no error is set. When it fails,
    the page's students are unchanged and the modal is not closed; the
    error becomes the detail of the response when that is truthy and
    "Failed to add student" otherwise. A string detail, or the fallback, is
    shown in the banner; a detail that is an object, or an array holding
    one, is stored as it is and makes the modal's render throw. Either way
    the form stops loading and keeps what was typed. *)
Theorem AddStudent_submit (f : AddStudentForm) (h : Home)
    (r : Student.t + any) :
  let p := handleSubmit_payload f in
  let f' := (handleSubmit_resume r (handleSubmit_begin f) h).1 in
  let h' := (handleSubmit_resume r (handleSubmit_begin f) h).2 in
  new_full_name p = fullName f ∧
  new_instrument p = form_instrument f ∧
  new_level p = Some (form_level f) ∧
  (new_parent_email p = None ↔ parentEmail f = "") ∧
  (∀ e, new_parent_email p = Some e → e = parentEmail f) ∧
  (new_parent_name p = None ↔ parentName f = "") ∧
  (∀ n, new_parent_name p = Some n → n = parentName f) ∧
  handleSubmit_payload f' = p ∧
  form_isLoading f' = false ∧
  match r with
  | inl data =>
      students h' = (students h ++ [data])%list ∧
      showAddStudent h' = false ∧
      form_error f' = AString "" ∧
      error_banner (form_error f') = Some (NoBanner [])
  | inr detail =>
      h' = h ∧
      form_error f' =
        (if any_truthy detail then detail else AString "Failed to add student") ∧
      any_truthy (form_error f') = true ∧
      (any_truthy detail = false →
       error_banner (form_error f') =
       Some (ErrorBanner [TextNode "Failed to add student"])) ∧
      (∀ d, detail = AString d → d ≠ "" →
       error_banner (form_error f') = Some (ErrorBanner [TextNode d])) ∧
      (detail = AObject ∨ (∃ items, detail = AArray items ∧ AObject ∈ items) →
       error_banner (form_error f') = None)
  end.
Proof.
  intros p f' h'. subst p f' h'. unfold handleSubmit_payload, or_undefined.
  do 3 (split; [done|]).
  split. { simpl. case_bool_decide; split; done. }
  split. { simpl. case_bool_decide; [done|]. by intros e [= <-]. }
  split. { simpl. case_bool_decide; split; done. }
  split. { simpl. case_bool_decide; [done|]. by intros n [= <-]. }
  destruct r as [data|detail]; cbn [fst snd handleSubmit_resume handleSubmit_begin
    fullName form_instrument form_level parentEmail parentName form_isLoading
    form_error]; [done|].
  do 3 (split; [done|]). unfold any_or.
  split; [done|]. split; [by destruct (any_truthy detail) eqn:Ht|].
  split; [by intros ->|]. split.
  - intros d -> Hd. unfold error_banner. simpl.
    rewrite (bool_decide_eq_false_2 _ Hd). simpl.
    by rewrite (bool_decide_eq_false_2 _ Hd).
  - intros [->|(items & -> & Hin)]; unfold error_banner;
      cbn [any_truthy]; [done|].
    by rewrite (render_child_array_object items Hin).
Qed.

(** * The student page *)

(** X17. The student page asks for its own student only. With a student id
    in the route, the effect requests that student and the lessons filtered
    by that id, never the unfiltered list; without one (or with an empty
    one) it requests nothing and the page keeps its spinner. When both
    answers arrive the page shows the student with all the lessons
    returned; when either request fails, nothing is stored, the failure is
    logged, and the page navigates to "/" and renders nothing. *)
Theorem StudentPage_load (sid : option string) (rs : response Student.t)
    (rl : response (list Lesson.t)) :
  let v0 := initial_student_view sid in
  let v1 := StudentPage_effect v0 in
  let v2 := StudentPage_loadData rs rl v1 in
  match sid with
  | Some id =>
      if bool_decide (id ≠ "")
      then view_requests v1 = ["/students/" ++ id; "/lessons?student_id=" ++ id]
      else view_requests v1 = [] ∧ StudentPage_render v1 = StudentSpinner
  | None => view_requests v1 = [] ∧ StudentPage_render v1 = StudentSpinner
  end ∧
  ("/lessons" ∉ view_requests v1) ∧
  match rs, rl with
  | Resolved s, Resolved ls =>
      StudentPage_render v2 = StudentBody s ls ∧
      view_navigated v2 = [] ∧ view_console v2 = []
  | _, _ =>
      StudentPage_render v2 = StudentNothing ∧
      view_navigated v2 = ["/"] ∧ view_console v2 = ["Failed to load data"]
  end.
Proof.
  intros v0 v1 v2. subst v0 v1 v2.
  assert (∀ v, StudentPage_render (StudentPage_loadData rs rl v) =
               match rs, rl with
               | Resolved s, Resolved ls => StudentBody s ls
               | _, _ => match student v with
                         | Some s => StudentBody s (lessons v)
                         | None => StudentNothing
                         end
               end ∧
               view_navigated (StudentPage_loadData rs rl v) =
               match rs, rl with
               | Resolved _, Resolved _ => view_navigated v
               | _, _ => (view_navigated v ++ ["/"])%list
               end ∧
               view_console (StudentPage_loadData rs rl v) =
               match rs, rl with
               | Resolved _, Resolved _ => view_console v
               | _, _ => (view_console v ++ ["Failed to load data"])%list
               end) as Hload
    by (intros v; by destruct rs, rl).
  unfold StudentPage_effect, initial_student_view, lessonsApi_list_url,
    studentsApi_get_url.
  cbn [studentId].
  destruct sid as [id|]; [case_bool_decide as Hid|].
  - split; [done|]. split.
    + cbn [view_requests app].
      rewrite !elem_of_cons, elem_of_nil.
      intros [H|[H|[]]]; discriminate H.
    + match goal with
      | |- context [StudentPage_loadData rs rl ?v] =>
          destruct (Hload v) as (-> & -> & ->)
      end.
      by destruct rs, rl.
  - split; [done|]. split; [apply not_elem_of_nil|].
    match goal with
    | |- context [StudentPage_loadData rs rl ?v] =>
        destruct (Hload v) as (-> & -> & ->)
    end.
    by destruct rs, rl.
  - split; [done|]. split; [apply not_elem_of_nil|].
    match goal with
    | |- context [StudentPage_loadData rs rl ?v] =>
        destruct (Hload v) as (-> & -> & ->)
    end.
    by destruct rs, rl.
Qed.

(** * The badge and the card header, outside the inherited names *)

(** X18. Rendering the badge never throws. For every status that is not the
    name of a member of [Object.prototype] the badge has a text: for one of
    the seven statuses the label and colour configured for it, for anything
    else the status itself in the neutral colour. *)
Theorem StatusBadge_label (status : string) :
  (∃ span, StatusBadge status = inr span) ∧
  (status ∉ Js.object_prototype_keys →
   ∃ cls text,
     StatusBadge status =
       inr {| className := badge_classes ++ cls; children := Some text |} ∧
     (status ∈ status_enum →
      statusConfig !! status = Some {| label := text; color := cls |}) ∧
     (status ∉ status_enum → cls = "bg-gray-600" ∧ text = status)).
Proof.
  split; [apply StatusBadge_never_throws|]. intros Hproto.
  destruct (decide (status ∈ status_enum)) as [Hin|Hout].
  - unfold status_enum in Hin. rewrite !elem_of_cons, elem_of_nil in Hin.
    destruct Hin as [->|[->|[->|[->|[->|[->|[->|[]]]]]]]];
      (do 2 eexists; split; [vm_compute; reflexivity|]);
      (split; [intros _; vm_compute; reflexivity|]);
      intros Hout; exfalso; apply Hout; apply (bool_decide_unpack _);
      vm_compute; exact I.
  - exists "bg-gray-600", status. split; [by apply StatusBadge_fallback|].
    split; [done|]. by intros _.
Qed.

(** X19. Rendering the header of an output card never throws. For every
    output whose type is not the name of a member of [Object.prototype] the
    header has a title and an icon: for one of the three known types the
    configured ones, for anything else the output type itself with the
    default icon. *)
Theorem OutputCard_header_title (output : Output) :
  (∃ hd, OutputCard_header output = inr hd) ∧
  (output_type output ∉ Js.object_prototype_keys →
   ∃ ic ti,
     OutputCard_header output =
       inr {| header_icon := Some ic; header_title := Some ti |} ∧
     (output_type output ∈ output_type_enum →
      outputTypeLabels !! output_type output = Some {| title := ti; icon := ic |}) ∧
     (output_type output ∉ output_type_enum →
      ic = "📄" ∧ ti = output_type output)).
Proof.
  split; [apply OutputCard_header_never_throws|]. intros Hproto.
  destruct (decide (output_type output ∈ output_type_enum)) as [Hin|Hout].
  - unfold output_type_enum in Hin. rewrite !elem_of_cons, elem_of_nil in Hin.
    unfold OutputCard_header.
    destruct Hin as [Hty|[Hty|[Hty|[]]]]; rewrite Hty;
      (do 2 eexists; split; [vm_compute; reflexivity|]);
      (split; [intros _; vm_compute; reflexivity|]);
      intros Hout; exfalso; apply Hout; apply (bool_decide_unpack _);
      vm_compute; exact I.
  - exists "📄", (output_type output).
    split; [by apply OutputCard_header_fallback|]. split; [done|]. by intros _.
Qed.
